(** * Gaussian-mixture benchmark task: a shallow embedding

    Source: [src/sbibm/tasks/gaussian_mixture/task.py].

    Conventions of the embedding.
    - Tensor entries are rationals ([Q]): arithmetic is exact, so rounding
      and overflow of the 32-bit floats of the tensor library are outside
      the model.  Equality of entries is [Qeq].
    - Tensors occur at ranks 0, 1 and 2 only: a rank-0 tensor is a [Q] (or a
      [nat] for an index), a rank-1 tensor a [vector], a rank-2 tensor a
      [matrix] given by the list of its rows.
    - [pyro.sample] is a node of a program tree ([Sample]); the tree is run
      against an explicit random generator, which replaces the global
      random state of the library.
    - The [while] loop of the rejection sampler takes a fuel argument; a
      run that uses it up ends in [Diverged]. *)

From Stdlib Require Import String ZArith QArith Bool Lia Lqa Arith List.
Import ListNotations.

Set Implicit Arguments.

Local Open Scope string_scope.
Local Open Scope list_scope.
Local Open Scope Q_scope.

(* ------------------------------------------------------------------ *)
(** ** Tensors *)

Definition vector := list Q.
Definition matrix := list (list Q).

(** A tensor of rank at most two, as the simulator receives it. *)
Inductive tensor : Type :=
| T0 (x : Q)
| T1 (v : vector)
| T2 (m : matrix).

Definition ndim (t : tensor) : nat :=
  match t with T0 _ => 0 | T1 _ => 1 | T2 _ => 2 end.

Definition shape (t : tensor) : list nat :=
  match t with
  | T0 _ => []
  | T1 v => [length v]
  | T2 m => [length m; length (hd [] m)]
  end.

(** [torch.atleast_2d]. *)
Definition atleast_2d (t : tensor) : matrix :=
  match t with
  | T0 x => [[x]]
  | T1 v => [v]
  | T2 m => m
  end.

(** Number of entries of a rank-2 tensor. *)
Definition numel (m : matrix) : nat :=
  fold_right (fun row n => (length row + n)%nat) 0%nat m.

(** Two rank-2 tensors with the same number of rows and, row by row, the
    same number of columns. *)
Definition same_shape (a b : matrix) : Prop :=
  Forall2 (fun ra rb : vector => length ra = length rb) a b.

(** Every row has [d] entries. *)
Definition cols (d : nat) (m : matrix) : Prop :=
  Forall (fun row : vector => length row = d) m.

(** [c * m] for a rank-0 [c]. *)
Definition scalar_mul (c : Q) (m : matrix) : matrix :=
  map (map (Qmult c)) m.

(** [col[:, None] * m]: a (B,1) column against a (B,d) tensor. *)
Definition mul_col (col : vector) (m : matrix) : matrix :=
  map (fun cr : Q * vector => map (Qmult (fst cr)) (snd cr)) (combine col m).

(** [v[None]] tiled [(b, 1)]: [b] copies of the row [v]. *)
Definition tile_rows (v : vector) (b : nat) : matrix := repeat v b.

(** [v[idx]] for a rank-1 index tensor. *)
Definition take (v : vector) (idx : list nat) : vector :=
  map (fun i => nth i v 0) idx.

(** [torch.cat] along dimension 0 of a non-empty list. *)
Definition cat (ts : list matrix) : matrix := concat ts.

(** Exceptions the modelled code can raise. *)
Inductive exn : Type :=
| AssertionError
| RuntimeError (msg : string)
| ZeroDivisionError
| TypeError
| ValueError (msg : string)
| ObservationLookupError.

(** Broadcasting of two dimensions: equal sizes are zipped, a size-one
    dimension is repeated, anything else is a shape mismatch. *)
Definition broadcast {A B : Type} (xs : list A) (ys : list B)
  : option (list (A * B)) :=
  match xs, ys with
  | [x], _ => Some (map (pair x) ys)
  | _, [y] => Some (map (fun x => (x, y)) xs)
  | _, _ => if Nat.eqb (length xs) (length ys)
            then Some (combine xs ys) else None
  end.

Fixpoint sequence_option {A : Type} (l : list (option A)) : option (list A) :=
  match l with
  | [] => Some []
  | None :: _ => None
  | Some a :: rest =>
      match sequence_option rest with
      | Some r => Some (a :: r)
      | None => None
      end
  end.

Definition shape_mismatch : exn :=
  RuntimeError "The size of tensor a must match the size of tensor b".

(** Entries of [a == b] after broadcasting both dimensions, flattened. *)
Definition eq_entries (a b : matrix) : exn + list bool :=
  match broadcast a b with
  | None => inl shape_mismatch
  | Some row_pairs =>
      match sequence_option
              (map (fun rr : vector * vector => broadcast (fst rr) (snd rr))
                   row_pairs) with
      | None => inl shape_mismatch
      | Some rows =>
          inr (map (fun xy : Q * Q => Qeq_bool (fst xy) (snd xy))
                   (concat rows))
      end
  end.

(** [element in self], that is [(element == self).any().item()]. *)
Definition contains (self element : matrix) : exn + bool :=
  match eq_entries element self with
  | inl e => inl e
  | inr bs => inr (existsb (fun b : bool => b) bs)
  end.

(* ------------------------------------------------------------------ *)
(** ** Special values of floating-point results

    The sampler only asks whether a log-probability is infinite, so a
    floating-point result is kept up to its class; the magnitude of a finite
    result is dropped. *)

Inductive fclass : Type := Finite | PInf | NInf | NaN.

(** [torch.log] of an exact value. *)
Definition log_class (x : Q) : fclass :=
  match Qcompare x 0 with
  | Gt => Finite
  | Eq => NInf
  | Lt => NaN
  end.

Definition neg_class (a : fclass) : fclass :=
  match a with PInf => NInf | NInf => PInf | c => c end.

Definition add_class (a b : fclass) : fclass :=
  match a, b with
  | NaN, _ | _, NaN => NaN
  | PInf, NInf | NInf, PInf => NaN
  | PInf, _ | _, PInf => PInf
  | NInf, _ | _, NInf => NInf
  | Finite, Finite => Finite
  end.

Definition sub_class (a b : fclass) : fclass := add_class a (neg_class b).

Definition sum_class (l : list fclass) : fclass :=
  fold_right add_class Finite l.

(** [torch.isinf]. *)
Definition isinf (a : fclass) : bool :=
  match a with PInf | NInf => true | _ => false end.

(** A 0/1 mask entry as the number it is multiplied as. *)
Definition mask (b : bool) : Q := if b then 1 else 0.

(** [Uniform(low, high).log_prob] at one entry:
    [log(lb * ub) - log(high - low)] with [lb = low <= x], [ub = high > x]. *)
Definition uniform_log_prob_entry (low high x : Q) : fclass :=
  let lb := mask (Qle_bool low x) in
  let ub := mask (negb (Qle_bool high x)) in
  sub_class (log_class (lb * ub)) (log_class (high - low)).

(** [Uniform(low, high).to_event(1).log_prob(value)]: the entries of each row
    of [value] are broadcast against the bounds and summed over the last
    dimension; the result has one entry per row. *)
Definition uniform_event_log_prob (low high : vector) (value : matrix)
  : exn + list fclass :=
  match sequence_option
          (map (fun row : vector => broadcast (combine low high) row) value) with
  | None => inl shape_mismatch
  | Some rows =>
      inr (map (fun row =>
                  sum_class
                    (map (fun bx : (Q * Q) * Q =>
                            uniform_log_prob_entry
                              (fst (fst bx)) (snd (fst bx)) (snd bx))
                         row))
               rows)
  end.

(* ------------------------------------------------------------------ *)
(** ** Random generator and distributions *)

(** The generator is an oracle for the two primitive variates of the tensor
    library, read at a moving cursor: [uniform_at] stands for [torch.rand]
    (values in [0, 1)) and [normal_at] for [torch.randn]. *)
Record Generator : Type := {
  uniform_at : nat -> Q;
  normal_at : nat -> Q;
  cursor : nat
}.

Definition advance (n : nat) (g : Generator) : Generator :=
  {| uniform_at := uniform_at g;
     normal_at := normal_at g;
     cursor := (cursor g + n)%nat |}.

(** The contract of [torch.rand]. *)
Definition unit_interval (g : Generator) : Prop :=
  forall i, 0 <= uniform_at g i /\ uniform_at g i < 1.

(** Distributions handed to [pyro.sample], indexed by the type of a draw. *)
Inductive Dist : Type -> Type :=
| Categorical (probs : vector) : Dist nat
| CategoricalRows (probs : matrix) : Dist (list nat)
| Normal (loc : matrix) (scale : Q) : Dist matrix
| NormalRows (loc : matrix) (scale : vector) : Dist matrix
| UniformEvent (low high : vector) (n : nat) : Dist matrix.

(** Index of the category in which [u] falls. *)
Fixpoint inverse_cdf (probs : vector) (u : Q) : nat :=
  match probs with
  | [] => 0%nat
  | p :: rest =>
      match rest with
      | [] => 0%nat
      | _ => if Qle_bool p u then S (inverse_cdf rest (u - p)) else 0%nat
      end
  end.

(** One row [loc + scale * eps], the noise read from position [pos] on. *)
Definition normal_row (g : Generator) (pos : nat) (scale : Q) (loc : vector)
  : vector :=
  map (fun jl : nat * Q => snd jl + scale * normal_at g (pos + fst jl))
      (combine (seq 0 (length loc)) loc).

Fixpoint normal_rows (g : Generator) (pos : nat) (rows : list (Q * vector))
  : matrix :=
  match rows with
  | [] => []
  | (scale, loc) :: rest =>
      normal_row g pos scale loc
        :: normal_rows g (pos + length loc) rest
  end.

(** One row [low + u * (high - low)]. *)
Definition uniform_row (g : Generator) (pos : nat) (low high : vector)
  : vector :=
  map (fun jb : nat * (Q * Q) =>
         fst (snd jb)
         + uniform_at g (pos + fst jb) * (snd (snd jb) - fst (snd jb)))
      (combine (seq 0 (length low)) (combine low high)).

Fixpoint uniform_rows (g : Generator) (pos : nat) (low high : vector)
  (n : nat) : matrix :=
  match n with
  | O => []
  | S n' =>
      uniform_row g pos low high
        :: uniform_rows g (pos + length low) low high n'
  end.

(** A draw from a distribution, and the generator after it. *)
Definition draw {X : Type} (d : Dist X) (g : Generator) : X * Generator :=
  match d in Dist T return T * Generator with
  | Categorical probs =>
      (inverse_cdf probs (uniform_at g (cursor g)), advance 1 g)
  | CategoricalRows probs =>
      (map (fun ip : nat * vector =>
              inverse_cdf (snd ip) (uniform_at g (cursor g + fst ip)))
           (combine (seq 0 (length probs)) probs),
       advance (length probs) g)
  | Normal loc scale =>
      (normal_rows g (cursor g) (map (pair scale) loc),
       advance (numel loc) g)
  | NormalRows loc scale =>
      (normal_rows g (cursor g) (combine scale loc),
       advance (numel (map snd (combine scale loc))) g)
  | UniformEvent low high n =>
      (uniform_rows g (cursor g) low high n,
       advance (n * length low) g)
  end.

(* ------------------------------------------------------------------ *)
(** ** Programs *)

(** A line of the log: the observation number and the acceptance rate. *)
Record log_record : Type := {
  log_num_observation : option Z;
  log_acceptance_rate : Q
}.

Inductive Prog (A : Type) : Type :=
| Ret (a : A)
| Raise (e : exn)
| OutOfFuel
| Sample (X : Type) (name : string) (d : Dist X) (k : X -> Prog A)
| LogInfo (r : log_record) (k : Prog A).

Arguments Ret {A} a.
Arguments Raise {A} e.
Arguments OutOfFuel {A}.
Arguments Sample {A X} name d k.
Arguments LogInfo {A} r k.

Fixpoint bind {A B : Type} (p : Prog A) (f : A -> Prog B) : Prog B :=
  match p with
  | Ret a => f a
  | Raise e => Raise e
  | OutOfFuel => OutOfFuel
  | Sample name d k => Sample name d (fun x => bind (k x) f)
  | LogInfo r k => LogInfo r (bind k f)
  end.

Definition lift {A : Type} (r : exn + A) : Prog A :=
  match r with
  | inl e => Raise e
  | inr a => Ret a
  end.

Definition assert_ (b : bool) : Prog unit :=
  if b then Ret tt else Raise AssertionError.

Declare Scope prog_scope.
Delimit Scope prog_scope with prog.
Notation "x <- p ;; q" := (bind p (fun x => q))
  (at level 100, p at next level, right associativity) : prog_scope.
Notation "p ;;; q" := (bind p (fun _ => q))
  (at level 100, right associativity) : prog_scope.

(** What a run sees and changes: the generator and the log. *)
Record World : Type := {
  generator : Generator;
  log : list log_record
}.

Inductive Outcome (A : Type) : Type :=
| Returned (a : A)
| Raised (e : exn)
| Diverged.

Arguments Returned {A} a.
Arguments Raised {A} e.
Arguments Diverged {A}.

Fixpoint run {A : Type} (p : Prog A) (w : World) : Outcome A * World :=
  match p with
  | Ret a => (Returned a, w)
  | Raise e => (Raised e, w)
  | OutOfFuel => (Diverged, w)
  | Sample name d k =>
      let xg := draw d (generator w) in
      run (k (fst xg)) {| generator := snd xg; log := log w |}
  | LogInfo r k =>
      run k {| generator := generator w; log := log w ++ [r] |}
  end.

(* ------------------------------------------------------------------ *)
(** ** The task *)

(** The attributes of a [GaussianMixture] object.  [get_observation] is the
    method inherited from the [Task] base class, which is not part of this
    file: it is a parameter of the constructor, and [None] stands for a
    failed lookup. *)
Record GaussianMixture : Type := {
  dim_parameters : nat;
  dim_data : nat;
  name_display : string;
  num_observations : Z;
  num_posterior_samples : Z;
  num_reference_posterior_samples : Z;
  num_simulations : list Z;
  prior_low : vector;
  prior_high : vector;
  mixture_locs_factor : vector;
  mixture_scales : vector;
  mixture_weights : vector;
  get_observation : Z -> option matrix
}.

(** [torch.ones((n,))]. *)
Definition ones (n : nat) : vector := repeat 1 n.

(** [torch.lt(low, high).all()]. *)
Definition all_lt (low high : vector) : bool :=
  forallb (fun lh : Q * Q => negb (Qle_bool (snd lh) (fst lh)))
          (combine low high).

(** The attributes [__init__] sets on the new object.  The bounds and the
    mixture parameters are the exact numbers written in the source; their
    rounding to the 32-bit floats of the tensors is outside the model. *)
Definition attributes (base_get_observation : Z -> option matrix)
  (dim : nat) (prior_bound : Q) : GaussianMixture :=
  {| dim_parameters := dim;
     dim_data := dim;
     name_display := "Gaussian Mixture";
     num_observations := 10;
     num_posterior_samples := 10000;
     num_reference_posterior_samples := 10000;
     num_simulations := [100; 1000; 10000; 100000; 1000000]%Z;
     prior_low := map (Qmult (- prior_bound)) (ones dim);
     prior_high := map (Qmult prior_bound) (ones dim);
     mixture_locs_factor := [1; 1];
     mixture_scales := [1; 1 # 10];
     mixture_weights := [1 # 2; 1 # 2];
     get_observation := base_get_observation |}.

(** [GaussianMixture.__init__].  [validate_args] is the process-wide default
    of the distribution library when the constructor is entered; the
    constructor returns the default it leaves behind.  With validation on,
    [Uniform] refuses bounds that are not [low < high] everywhere (line 44);
    line 45 then switches validation off for every distribution built or
    evaluated afterwards, so the samplers below check no argument. *)
Definition __init__ (base_get_observation : Z -> option matrix)
  (dim : nat) (prior_bound : Q) (validate_args : bool)
  : (exn + GaussianMixture) * bool :=
  let self := attributes base_get_observation dim prior_bound in
  if validate_args && negb (all_lt (prior_low self) (prior_high self))
  then (inl (ValueError "Uniform is not defined when low>= high"),
        validate_args)
  else (inr self, false).

(** [self.prior_dist.log_prob]. *)
Definition prior_log_prob (self : GaussianMixture) (value : matrix)
  : exn + list fclass :=
  uniform_event_log_prob (prior_low self) (prior_high self) value.

(** The closure returned by [get_prior]; [num_samples] defaults to 1 in the
    source.  A negative size cannot be expanded to. *)
Definition get_prior (self : GaussianMixture) (num_samples : Z)
  : Prog matrix :=
  if (num_samples <? 0)%Z
  then Raise (RuntimeError "the expanded size of the tensor isn't allowed")
  else Sample "parameters"
         (UniformEvent (prior_low self) (prior_high self)
                       (Z.to_nat num_samples))
         Ret.

(** The closure [simulator] of [get_simulator]. *)
Definition simulator (self : GaussianMixture) (parameters : tensor)
  : Prog matrix :=
  let parameters := atleast_2d parameters in
  Sample "mixture_idx"
    (CategoricalRows (tile_rows (mixture_weights self) (length parameters)))
    (fun idx =>
       Sample "data"
         (NormalRows
            (mul_col (take (mixture_locs_factor self) idx) parameters)
            (take (mixture_scales self) idx))
         Ret).

(** The [Simulator] object: the wrapper class is not part of this file, the
    object is kept as the arguments it is built from. *)
Record Simulator : Type := {
  sim_task : GaussianMixture;
  sim_simulator : tensor -> Prog matrix;
  sim_max_calls : option Z
}.

Definition get_simulator (self : GaussianMixture) (max_calls : option Z)
  : Simulator :=
  {| sim_task := self;
     sim_simulator := simulator self;
     sim_max_calls := max_calls |}.

(* ------------------------------------------------------------------ *)
(** ** The reference posterior *)

(** The loop variables: [counter] and [reference_posterior_samples]. *)
Definition loop_state : Type := (Z * list matrix)%type.

Local Open Scope prog_scope.

(** Lines 120-140: one pass through the body of the [while] loop. *)
Definition loop_body (self : GaussianMixture) (observation : matrix)
  (st : loop_state) : Prog loop_state :=
  let counter := (fst st + 1)%Z in
  let reference_posterior_samples := snd st in
  Sample "mixture_idx" (Categorical (mixture_weights self)) (fun idx =>
  Sample "posterior_sample"
    (Normal (scalar_mul (nth idx (mixture_locs_factor self) 0) observation)
            (nth idx (mixture_scales self) 0)) (fun sample =>
  lp <- lift (prior_log_prob self sample) ;;
  let is_outside_prior := isinf (sum_class lp) in
  is_duplicate <-
    (if Nat.ltb 0 (length reference_posterior_samples)
     then lift (contains (cat reference_posterior_samples) sample)
     else Ret false) ;;
  if negb is_outside_prior && negb is_duplicate
  then Ret (counter, reference_posterior_samples ++ [sample])
  else Ret (counter, reference_posterior_samples))).

(** Line 119: the loop, with [fuel] bounding the number of passes. *)
Fixpoint rejection_loop (fuel : nat) (self : GaussianMixture)
  (observation : matrix) (num_samples : Z) (st : loop_state)
  : Prog loop_state :=
  if (Z.of_nat (length (snd st)) <? num_samples)%Z
  then match fuel with
       | O => OutOfFuel
       | S fuel' =>
           st' <- loop_body self observation st ;;
           rejection_loop fuel' self observation num_samples st'
       end
  else Ret st.

Definition is_none {A : Type} (o : option A) : bool :=
  match o with None => true | Some _ => false end.

(** [torch.cat] refuses an empty list.  The class of the exception is that
    of the library versions the repository was written for. *)
Definition cat_checked (ts : list matrix) : Prog matrix :=
  match ts with
  | [] => Raise (RuntimeError "torch.cat(): expected a non-empty list of Tensors")
  | _ => Ret (cat ts)
  end.

(** [num_samples / counter] on Python integers. *)
Definition true_div (a b : Z) : Prog Q :=
  if (b =? 0)%Z then Raise ZeroDivisionError
  else Ret (inject_Z a / inject_Z b).

(** [GaussianMixture._sample_reference_posterior]. *)
Definition _sample_reference_posterior (fuel : nat) (self : GaussianMixture)
  (num_samples : Z) (num_observation : option Z)
  (observation : option matrix) : Prog matrix :=
  assert_ (negb (is_none num_observation && is_none observation)) ;;;
  assert_ (negb (negb (is_none num_observation)
                 && negb (is_none observation))) ;;;
  observation <-
    match num_observation with
    | Some n =>
        match get_observation self n with
        | Some o => Ret o
        | None => Raise ObservationLookupError
        end
    | None =>
        match observation with
        | Some o => Ret o
        | None => Raise TypeError
        end
    end ;;
  st <- rejection_loop fuel self observation num_samples (0%Z, []) ;;
  reference_posterior_samples <- cat_checked (snd st) ;;
  acceptance_rate <- true_div num_samples (fst st) ;;
  LogInfo {| log_num_observation := num_observation;
             log_acceptance_rate := acceptance_rate |}
          (Ret reference_posterior_samples).

Local Close Scope prog_scope.

(* ------------------------------------------------------------------ *)
(** ** The loop as a step relation *)

(** [loop_reaches self obs n st w st' w']: from loop variables [st] and world
    [w], some number of passes through the loop body (each entered with the
    loop condition true, each returning normally) leads to [st'] and [w']. *)
Inductive loop_reaches (self : GaussianMixture) (observation : matrix)
  (num_samples : Z) : loop_state -> World -> loop_state -> World -> Prop :=
| reaches_refl : forall st w,
    loop_reaches self observation num_samples st w st w
| reaches_step : forall st w st1 w1 st2 w2,
    loop_reaches self observation num_samples st w st1 w1 ->
    (Z.of_nat (length (snd st1)) < num_samples)%Z ->
    run (loop_body self observation st1) w1 = (Returned st2, w2) ->
    loop_reaches self observation num_samples st w st2 w2.

(** The observation the sampler works on. *)
Definition observation_used (self : GaussianMixture)
  (num_observation : option Z) (observation : option matrix)
  : option matrix :=
  match num_observation with
  | Some n => get_observation self n
  | None => observation
  end.

(** Every entry of [m] lies in the closed interval from [lo] to [hi]. *)
Definition entries_within (lo hi : Q) (m : matrix) : Prop :=
  forall row x, In row m -> In x row -> lo <= x /\ x <= hi.

(** The prior log-probability of [sample] evaluates to a finite number. *)
Definition finite_log_prob (self : GaussianMixture) (sample : matrix) : Prop :=
  exists lp, prior_log_prob self sample = inr lp /\ sum_class lp = Finite.

(** Two samples agree in every entry. *)
Definition identical (a b : matrix) : Prop :=
  Forall2 (Forall2 Qeq) a b.

(* ------------------------------------------------------------------ *)
(** ** Notions used in the statements *)

(** The candidate of a pass that starts in world [w]. *)
Definition candidate (self : GaussianMixture) (observation : matrix)
  (w : World) : matrix :=
  let ig := draw (Categorical (mixture_weights self)) (generator w) in
  fst (draw (Normal
               (scalar_mul (nth (fst ig) (mixture_locs_factor self) 0)
                           observation)
               (nth (fst ig) (mixture_scales self) 0))
            (snd ig)).

(** What the duplicate test of a pass evaluates to. *)
Definition duplicate_test (accepted : list matrix) (sample : matrix)
  : exn + bool :=
  if Nat.ltb 0 (length accepted)
  then contains (cat accepted) sample
  else inr false.

(** Some entry of the candidate row agrees with the entry below it. *)
Definition shares_entry (r r' : vector) : bool :=
  existsb (fun xy : Q * Q => Qeq_bool (fst xy) (snd xy)) (combine r r').

(** Only two classes occur in a sum when the bounds are a proper
    interval. *)
Definition finite_or_ninf (c : fclass) : Prop := c = Finite \/ c = NInf.

(** What follows the loop (lines 142-149), from the loop variables. *)
Definition after_loop (num_samples : Z) (num_observation : option Z)
  (st : loop_state) (w : World) : Outcome matrix * World :=
  match snd st with
  | [] =>
      (Raised (RuntimeError "torch.cat(): expected a non-empty list of Tensors"),
       w)
  | _ =>
      if (fst st =? 0)%Z then (Raised ZeroDivisionError, w)
      else (Returned (cat (snd st)),
            {| generator := generator w;
               log := log w ++
                        [{| log_num_observation := num_observation;
                            log_acceptance_rate :=
                              inject_Z num_samples / inject_Z (fst st) |}] |})
  end.

(* ------------------------------------------------------------------ *)
(** ** Concrete inputs *)

(** No observation is stored. *)
Definition no_files : Z -> option matrix := fun _ => None.

(** Index variates 1/4 (the first component); the noise at position [i]
    is [i]. *)
Definition example_generator : Generator :=
  {| uniform_at := fun _ => 1 # 4;
     normal_at := fun i => inject_Z (Z.of_nat i);
     cursor := 0 |}.

Definition example_world : World :=
  {| generator := example_generator; log := [] |}.

(** Noise that makes the second candidate share its first entry with the
    first one: the candidates are (1,2), (1,3) and (4,5). *)
Definition sharing_generator : Generator :=
  {| uniform_at := fun _ => 1 # 4;
     normal_at := fun i => nth i [0; 1; 2; 0; 1; 3; 0; 4; 5] 0;
     cursor := 0 |}.

Definition sharing_world : World :=
  {| generator := sharing_generator; log := [] |}.

(** Noise 5 everywhere. *)
Definition far_generator : Generator :=
  {| uniform_at := fun _ => 1 # 4;
     normal_at := fun _ => 5;
     cursor := 0 |}.

Definition far_world : World :=
  {| generator := far_generator; log := [] |}.

(** The call for two samples of a two-dimensional task with bound 10. *)
Definition example_call : Prog matrix :=
  _sample_reference_posterior 10 (attributes no_files 2 10) 2
    None (Some [[0; 0]]).

(* ------------------------------------------------------------------ *)
(** ** Further notions *)

(** The world after one pass through the loop body: one index variate and
    one variate per entry of the observation have been read. *)
Definition after_pass (observation : matrix) (w : World) : World :=
  {| generator := advance (numel observation) (advance 1 (generator w));
     log := log w |}.

(** Two generators that differ at most in the cursor. *)
Definition same_streams (g g' : Generator) : Prop :=
  uniform_at g = uniform_at g' /\ normal_at g = normal_at g'.

(** Every entry of [m] lies in the support of the prior, the half-open
    interval from [-b] to [b]. *)
Definition entries_in_support (b : Q) (m : matrix) : Prop :=
  forall row x, In row m -> In x row -> - b <= x /\ x < b.

(** No entry of [r] equals the entry of [r'] in the same column. *)
Definition no_common_entry (r r' : vector) : Prop :=
  Forall (fun xy : Q * Q => ~ fst xy == snd xy) (combine r r').

(** The world after [k] passes. *)
Definition pass_world (observation : matrix) (k : nat) (w : World) : World :=
  Nat.iter k (after_pass observation) w.

(** The candidates of the first [k] passes. *)
Definition candidates (self : GaussianMixture) (observation : matrix)
  (k : nat) (w : World) : list matrix :=
  map (fun i => candidate self observation (pass_world observation i w))
      (seq 0 k).

(** An observation far outside the bound 10, and a batch of two parameter
    vectors. *)
Definition far_observation : matrix := [[100; 100]].

Definition example_batch : matrix := [[1; 2]; [3; 4]].



(* ------------------------------------------------------------------ *)
(** ** Running programs *)

Lemma run_bind (A B : Type) (p : Prog A) (f : A -> Prog B) (w : World) :
  run (bind p f) w =
  match run p w with
  | (Returned a, w') => run (f a) w'
  | (Raised e, w') => (Raised e, w')
  | (Diverged, w') => (Diverged, w')
  end.
Proof.
  revert w; induction p as [a | e | | X name d k IH | r k IH]; intro w; simpl.
  - destruct (run (f a) w); reflexivity.
  - reflexivity.
  - reflexivity.
  - apply IH.
  - apply IH.
Qed.

Lemma run_bind_returned (A B : Type) (p : Prog A) (f : A -> Prog B)
  (w w' : World) (b : B) :
  run (bind p f) w = (Returned b, w') ->
  exists a w1, run p w = (Returned a, w1) /\ run (f a) w1 = (Returned b, w').
Proof.
  rewrite run_bind.
  destruct (run p w) as [[a | e |] w1]; intro H; try discriminate.
  exists a, w1; split; [reflexivity | exact H].
Qed.

Lemma run_lift_returned (A : Type) (r : exn + A) (w w' : World) (a : A) :
  run (lift r) w = (Returned a, w') -> r = inr a /\ w' = w.
Proof.
  destruct r as [e | a0]; simpl; intro H; inversion H; auto.
Qed.

(* ------------------------------------------------------------------ *)
(** ** Shapes of draws *)

Lemma length_normal_row g pos scale loc :
  length (normal_row g pos scale loc) = length loc.
Proof.
  unfold normal_row.
  rewrite length_map, length_combine, length_seq.
  apply Nat.min_id.
Qed.

Lemma normal_rows_shape g rows : forall pos,
  same_shape (normal_rows g pos rows) (map snd rows).
Proof.
  unfold same_shape.
  induction rows as [| [scale loc] rest IH]; intro pos; simpl.
  - constructor.
  - constructor; [apply length_normal_row | apply IH].
Qed.

Lemma map_snd_pair (A B : Type) (a : A) (l : list B) :
  map snd (map (pair a) l) = l.
Proof.
  induction l as [| x l IH]; simpl; [reflexivity | now rewrite IH].
Qed.

Lemma scalar_mul_shape c m : same_shape (scalar_mul c m) m.
Proof.
  unfold same_shape, scalar_mul.
  induction m as [| row m IH]; simpl; constructor.
  - apply length_map.
  - exact IH.
Qed.

Lemma same_shape_trans a b c :
  same_shape a b -> same_shape b c -> same_shape a c.
Proof.
  unfold same_shape; intro H; revert c.
  induction H as [| x y a b Hxy Hab IH]; intros c Hbc; inversion Hbc; subst.
  - constructor.
  - constructor; [congruence | now apply IH].
Qed.

Lemma same_shape_length a b : same_shape a b -> length a = length b.
Proof.
  unfold same_shape; induction 1; simpl; congruence.
Qed.

Lemma same_shape_numel a b : same_shape a b -> numel a = numel b.
Proof.
  unfold same_shape; induction 1; simpl; congruence.
Qed.

Lemma same_shape_cols d a b : same_shape a b -> cols d b -> cols d a.
Proof.
  unfold same_shape, cols; induction 1; intro Hc; inversion Hc; subst;
    constructor; [congruence | auto].
Qed.

(** A draw from [Normal loc scale] has the shape of [loc]. *)
Lemma draw_normal_shape loc scale g :
  same_shape (fst (draw (Normal loc scale) g)) loc.
Proof.
  simpl.
  pose proof (normal_rows_shape g (map (pair scale) loc) (cursor g)) as H.
  now rewrite map_snd_pair in H.
Qed.

Lemma numel_scalar_mul c m : numel (scalar_mul c m) = numel m.
Proof.
  apply same_shape_numel, scalar_mul_shape.
Qed.

(* ------------------------------------------------------------------ *)
(** ** One pass through the loop body *)

Lemma candidate_shape self observation w :
  same_shape (candidate self observation w) observation.
Proof.
  unfold candidate.
  eapply same_shape_trans; [apply draw_normal_shape | apply scalar_mul_shape].
Qed.

(** A pass that returns has advanced the counter by one, has read one
    variate for the index and one per entry of the observation, has logged
    nothing, and has either appended its candidate (which then passed both
    tests) or left the list alone (one of the tests then failed). *)
Lemma loop_body_returned self observation st w st' w' :
  run (loop_body self observation st) w = (Returned st', w') ->
  let sample := candidate self observation w in
  fst st' = (fst st + 1)%Z /\
  log w' = log w /\
  cursor (generator w') =
    (cursor (generator w) + (1 + numel observation))%nat /\
  exists lp dup,
    prior_log_prob self sample = inr lp /\
    duplicate_test (snd st) sample = inr dup /\
    snd st' = if negb (isinf (sum_class lp)) && negb dup
              then snd st ++ [sample] else snd st.
Proof.
  unfold loop_body; simpl run; intro H.
  apply run_bind_returned in H as (lp & w1 & Hlp & H).
  apply run_lift_returned in Hlp as [Hlp ->].
  apply run_bind_returned in H as (dup & w2 & Hdup & H).
  assert (Hd : duplicate_test (snd st) (candidate self observation w) = inr dup
               /\ w2 = {| generator :=
                            snd (draw (Normal
                               (scalar_mul
                                  (nth (fst (draw (Categorical (mixture_weights self)) (generator w)))
                                       (mixture_locs_factor self) 0) observation)
                               (nth (fst (draw (Categorical (mixture_weights self)) (generator w)))
                                    (mixture_scales self) 0))
                              (snd (draw (Categorical (mixture_weights self)) (generator w))));
                          log := log w |}).
  { unfold duplicate_test.
    destruct (Nat.ltb 0 (length (snd st))).
    - apply run_lift_returned in Hdup as [Hdup ->]. split; [exact Hdup | reflexivity].
    - simpl in Hdup. inversion Hdup; subst. split; reflexivity. }
  destruct Hd as [Hd ->].
  cbv zeta.
  assert (Hst : st' = (if negb (isinf (sum_class lp)) && negb dup
                       then ((fst st + 1)%Z, snd st ++ [candidate self observation w])
                       else ((fst st + 1)%Z, snd st))
                /\ w' = {| generator :=
                            snd (draw (Normal
                               (scalar_mul
                                  (nth (fst (draw (Categorical (mixture_weights self)) (generator w)))
                                       (mixture_locs_factor self) 0) observation)
                               (nth (fst (draw (Categorical (mixture_weights self)) (generator w)))
                                    (mixture_scales self) 0))
                              (snd (draw (Categorical (mixture_weights self)) (generator w))));
                          log := log w |}).
  { destruct (negb (isinf (sum_class lp)) && negb dup);
      simpl in H; inversion H; subst; split; reflexivity. }
  destruct Hst as [-> ->].
  repeat split.
  - destruct (negb (isinf (sum_class lp)) && negb dup); reflexivity.
  - simpl. rewrite numel_scalar_mul. lia.
  - exists lp, dup. repeat split; try assumption.
    destruct (negb (isinf (sum_class lp)) && negb dup); reflexivity.
Qed.

(* ------------------------------------------------------------------ *)
(** ** The loop function and the step relation *)

Lemma loop_reaches_first self observation n st w st1 w1 st2 w2 :
  (Z.of_nat (length (snd st)) < n)%Z ->
  run (loop_body self observation st) w = (Returned st1, w1) ->
  loop_reaches self observation n st1 w1 st2 w2 ->
  loop_reaches self observation n st w st2 w2.
Proof.
  intros Hc Hb Hr.
  induction Hr as [st1 w1 | st1 w1 st3 w3 st2 w2 _ IH Hc' Hb'].
  - eapply reaches_step; [apply reaches_refl | exact Hc | exact Hb].
  - eapply reaches_step; [apply IH; assumption | exact Hc' | exact Hb'].
Qed.

(** A run of the loop that returns has gone through the step relation and
    has left with the loop condition false. *)
Lemma rejection_loop_returned self observation n fuel : forall st w st' w',
  run (rejection_loop fuel self observation n st) w = (Returned st', w') ->
  loop_reaches self observation n st w st' w' /\
  (n <= Z.of_nat (length (snd st')))%Z.
Proof.
  induction fuel as [| fuel IH]; intros st w st' w' H; simpl in H.
  - destruct (Z.ltb_spec (Z.of_nat (length (snd st))) n) as [Hc | Hc].
    + discriminate.
    + inversion H; subst. split; [apply reaches_refl | exact Hc].
  - destruct (Z.ltb_spec (Z.of_nat (length (snd st))) n) as [Hc | Hc].
    + apply run_bind_returned in H as (st1 & w1 & Hb & H).
      apply IH in H as [Hr Hn].
      split; [| exact Hn].
      eapply loop_reaches_first; eassumption.
    + inversion H; subst. split; [apply reaches_refl | exact Hc].
Qed.

Lemma rejection_loop_eq fuel self observation n st :
  rejection_loop fuel self observation n st =
  if (Z.of_nat (length (snd st)) <? n)%Z
  then match fuel with
       | O => OutOfFuel
       | S fuel' =>
           bind (loop_body self observation st)
                (rejection_loop fuel' self observation n)
       end
  else Ret st.
Proof.
  destruct fuel; reflexivity.
Qed.

(** More fuel does not change a run that returned. *)
Lemma rejection_loop_fuel_mono self observation n fuel : forall st w st' w',
  run (rejection_loop fuel self observation n st) w = (Returned st', w') ->
  run (rejection_loop (S fuel) self observation n st) w = (Returned st', w').
Proof.
  induction fuel as [| fuel IH]; intros st w st' w' H;
    rewrite rejection_loop_eq in H; rewrite rejection_loop_eq;
    destruct (Z.ltb (Z.of_nat (length (snd st))) n); try exact H.
  - discriminate.
  - rewrite run_bind in H. rewrite run_bind.
    destruct (run (loop_body self observation st) w) as [[st1 | e |] w1];
      try discriminate.
    apply IH. exact H.
Qed.

(** A property of the accepted list that holds at the start and survives
    every accepted candidate holds in every state the loop reaches. *)
Lemma loop_invariant self observation n (P : list matrix -> Prop) :
  (forall accepted w lp,
      P accepted ->
      prior_log_prob self (candidate self observation w) = inr lp ->
      isinf (sum_class lp) = false ->
      duplicate_test accepted (candidate self observation w) = inr false ->
      P (accepted ++ [candidate self observation w])) ->
  forall st w st' w',
    loop_reaches self observation n st w st' w' ->
    P (snd st) -> P (snd st').
Proof.
  intros Hstep st w st' w' Hr.
  induction Hr as [st w | st w st1 w1 st2 w2 _ IH Hc Hb]; intro H0.
  - exact H0.
  - specialize (IH H0).
    apply loop_body_returned in Hb as (_ & _ & _ & lp & dup & Hlp & Hdup & Hs).
    rewrite Hs.
    destruct (isinf (sum_class lp)) eqn:Hinf; simpl; [exact IH |].
    destruct dup; simpl; [exact IH |].
    eapply Hstep; eassumption.
Qed.

(** Counting: after [k] passes the counter has grown by [k], [k] index
    variates and [k] candidates have been read, nothing was logged, and the
    list has grown by at most [k] and never beyond [num_samples]. *)
Lemma loop_counts self observation n st w st' w' :
  loop_reaches self observation n st w st' w' ->
  exists k : nat,
    fst st' = (fst st + Z.of_nat k)%Z /\
    cursor (generator w') =
      (cursor (generator w) + k * (1 + numel observation))%nat /\
    log w' = log w /\
    (length (snd st') <= length (snd st) + k)%nat /\
    (Z.of_nat (length (snd st')) <= Z.max n (Z.of_nat (length (snd st))))%Z.
Proof.
  induction 1 as [st w | st w st1 w1 st2 w2 _ IH Hc Hb].
  - exists 0%nat. repeat split; simpl; lia.
  - destruct IH as (k & Hk & Hcur & Hlog & Hlen & Hmax).
    apply loop_body_returned in Hb
      as (Hf & Hl & Hcu & lp & dup & _ & _ & Hs).
    exists (S k). rewrite Hf, Hk, Hl, Hlog, Hcu, Hcur, Hs.
    assert (Hlen2 : (length (if negb (isinf (sum_class lp)) && negb dup
                             then snd st1 ++ [candidate self observation w1]
                             else snd st1) <= S (length (snd st1)))%nat).
    { destruct (negb (isinf (sum_class lp)) && negb dup);
        [rewrite length_app; simpl |]; lia. }
    repeat split; try lia.
Qed.

(* ------------------------------------------------------------------ *)
(** ** The prior log-probability *)

Lemma sequence_option_map (A B : Type) (f : A -> option B) (l : list A) :
  forall rs, sequence_option (map f l) = Some rs ->
             Forall2 (fun a r => f a = Some r) l rs.
Proof.
  induction l as [| a l IH]; intros rs H; simpl in H.
  - inversion H. constructor.
  - destruct (f a) as [r |] eqn:Hfa; [| discriminate].
    destruct (sequence_option (map f l)) as [rest |]; [| discriminate].
    inversion H; subst. constructor; [exact Hfa | now apply IH].
Qed.

Lemma broadcast_same_length (A B : Type) (xs : list A) (ys : list B) :
  length xs = length ys -> broadcast xs ys = Some (combine xs ys).
Proof.
  intro H. unfold broadcast.
  destruct xs as [| x [| x' xs]]; destruct ys as [| y [| y' ys]];
    simpl in H; try discriminate; try reflexivity.
  injection H as H. simpl. rewrite H, Nat.eqb_refl. reflexivity.
Qed.

Lemma in_combine_exists_l (A B : Type) (xs : list A) : forall (ys : list B) y,
  length xs = length ys -> In y ys -> exists x, In (x, y) (combine xs ys).
Proof.
  induction xs as [| x xs IH]; intros [| y0 ys] y Hl Hin; simpl in *;
    try discriminate; try contradiction.
  destruct Hin as [-> | Hin].
  - exists x. now left.
  - destruct (IH ys y) as [x' Hx']; [congruence | exact Hin |].
    exists x'. now right.
Qed.

Lemma entry_class low high x :
  low < high ->
  finite_or_ninf (uniform_log_prob_entry low high x) /\
  (uniform_log_prob_entry low high x = Finite -> low <= x /\ x < high).
Proof.
  intro Hlt. unfold uniform_log_prob_entry.
  assert (Hw : log_class (high - low) = Finite).
  { unfold log_class.
    assert (Hg : high - low > 0) by lra.
    apply Qgt_alt in Hg. now rewrite Hg. }
  rewrite Hw.
  destruct (Qle_bool low x) eqn:Hlb; destruct (Qle_bool high x) eqn:Hub;
    simpl; unfold finite_or_ninf; (split; [auto |]); try discriminate.
  intros _. apply Qle_bool_iff in Hlb. split; [exact Hlb |].
  apply Qnot_le_lt. intro Hc. apply Qle_bool_iff in Hc. congruence.
Qed.

Lemma sum_class_finite (l : list fclass) :
  Forall finite_or_ninf l ->
  finite_or_ninf (sum_class l) /\
  (isinf (sum_class l) = false -> Forall (fun c => c = Finite) l).
Proof.
  induction 1 as [| c l Hc _ IH]; simpl.
  - split; [now left | constructor].
  - destruct IH as [Hs IH].
    destruct Hc as [-> | ->]; destruct Hs as [Hs | Hs]; rewrite Hs in *;
      simpl; (split; [unfold finite_or_ninf; auto |]); try discriminate.
    intros _. constructor; [reflexivity | apply IH; reflexivity].
Qed.

Lemma sum_class_all_finite (l : list fclass) :
  Forall (fun c => c = Finite) l -> sum_class l = Finite.
Proof.
  induction 1 as [| c l -> _ IH]; simpl; [reflexivity | now rewrite IH].
Qed.

Lemma prior_bounds ext d b lo hi :
  In (lo, hi) (combine (prior_low (attributes ext d b))
                       (prior_high (attributes ext d b))) ->
  lo == - b /\ hi == b.
Proof.
  intro H. simpl in H.
  pose proof (in_combine_l _ _ _ _ H) as Hl.
  pose proof (in_combine_r _ _ _ _ H) as Hh.
  apply in_map_iff in Hl as (one & <- & Hone).
  apply in_map_iff in Hh as (one' & <- & Hone').
  apply repeat_spec in Hone. apply repeat_spec in Hone'. subst.
  split; ring.
Qed.

Lemma length_prior_bounds ext d b :
  length (combine (prior_low (attributes ext d b))
                  (prior_high (attributes ext d b))) = d.
Proof.
  simpl. rewrite length_combine, !length_map. unfold ones.
  rewrite repeat_length. apply Nat.min_id.
Qed.

(** With a positive bound, a sample whose rows have the prior's dimension
    and whose log-probability is not infinite has a finite log-probability
    and every entry in [[-b, b)]. *)
Lemma not_outside_prior ext d b sample lp :
  0 < b ->
  cols d sample ->
  prior_log_prob (attributes ext d b) sample = inr lp ->
  isinf (sum_class lp) = false ->
  sum_class lp = Finite /\
  forall row x, In row sample -> In x row -> - b <= x /\ x < b.
Proof.
  intros Hb Hcols Hlp Hinf.
  unfold prior_log_prob, uniform_event_log_prob in Hlp.
  set (bounds := combine (prior_low (attributes ext d b))
                         (prior_high (attributes ext d b))) in *.
  destruct (sequence_option
              (map (fun row : vector => broadcast bounds row) sample))
    as [rows |] eqn:Hseq; [| discriminate].
  inversion Hlp as [Hlp']; clear Hlp.
  apply sequence_option_map in Hseq.
  set (row_sum := fun row : list (Q * Q * Q) =>
         sum_class
           (map (fun bx : Q * Q * Q =>
                   uniform_log_prob_entry (fst (fst bx)) (snd (fst bx)) (snd bx))
                row)) in *.
  assert (Hrows : Forall2 (fun (row : vector) r => r = combine bounds row)
                          sample rows).
  { clear Hlp' Hinf. revert Hcols.
    induction Hseq as [| row r sample rows Hr _ IH]; intro Hcols;
      inversion Hcols; subst; constructor.
    - rewrite broadcast_same_length in Hr.
      + now inversion Hr.
      + unfold bounds. now rewrite length_prior_bounds.
    - apply IH. assumption. }
  assert (Hentry : forall r, In r rows ->
            Forall finite_or_ninf
              (map (fun bx : Q * Q * Q =>
                      uniform_log_prob_entry
                        (fst (fst bx)) (snd (fst bx)) (snd bx)) r)).
  { intros r Hr. apply Forall_forall. intros c Hc.
    apply in_map_iff in Hc as ([[lo hi] x] & <- & Hin). simpl.
    assert (Hlh : In (lo, hi) bounds).
    { clear - Hrows Hr Hin.
      induction Hrows as [| row r0 sample rows Hr0 _ IH].
      - contradiction.
      - destruct Hr as [-> | Hr]; [| now apply IH].
        subst. eapply in_combine_l. exact Hin. }
    apply prior_bounds in Hlh as [Hlo Hhi].
    apply entry_class. rewrite Hlo, Hhi. lra. }
  assert (Hsums : Forall finite_or_ninf lp).
  { subst lp. apply Forall_forall. intros c Hc.
    apply in_map_iff in Hc as (r & <- & Hr).
    apply sum_class_finite. now apply Hentry. }
  pose proof (sum_class_finite Hsums) as [_ Hfin].
  specialize (Hfin Hinf).
  rewrite Hlp'. split; [now apply sum_class_all_finite |].
  intros row x Hrow Hx.
  assert (Hr : In (combine bounds row) rows).
  { clear - Hrows Hrow.
    induction Hrows as [| row0 r0 sample rows Hr0 _ IH].
    - contradiction.
    - destruct Hrow as [-> | Hrow]; [left; exact Hr0 | right; now apply IH]. }
  assert (Hlen : length bounds = length row).
  { unfold bounds. rewrite length_prior_bounds.
    unfold cols in Hcols. rewrite Forall_forall in Hcols.
    symmetry. now apply Hcols. }
  destruct (in_combine_exists_l bounds row x Hlen Hx) as [[lo hi] Hin].
  assert (Hc : row_sum (combine bounds row) = Finite).
  { rewrite Forall_forall in Hfin. apply Hfin. subst lp.
    apply in_map_iff. exists (combine bounds row). split; [reflexivity | exact Hr]. }
  pose proof (Hentry _ Hr) as He.
  apply sum_class_finite in He as [_ He].
  unfold row_sum in Hc. rewrite Hc in He. specialize (He eq_refl).
  rewrite Forall_forall in He.
  assert (Hxe : uniform_log_prob_entry lo hi x = Finite).
  { apply He. apply in_map_iff. exists ((lo, hi), x). split; [reflexivity | exact Hin]. }
  pose proof (in_combine_l _ _ _ _ Hin) as Hlh.
  apply prior_bounds in Hlh as [Hlo Hhi].
  apply entry_class in Hxe as [H1 H2]; [| rewrite Hlo, Hhi; lra].
  rewrite Hlo in H1. rewrite Hhi in H2. split; assumption.
Qed.

(* ------------------------------------------------------------------ *)
(** ** Runs of the reference-posterior sampler *)

Lemma srp_run fuel self n num_observation observation o w :
  xorb (is_none num_observation) (is_none observation) = true ->
  observation_used self num_observation observation = Some o ->
  run (_sample_reference_posterior fuel self n num_observation observation) w =
  match run (rejection_loop fuel self o n (0%Z, [])) w with
  | (Returned st, w1) => after_loop n num_observation st w1
  | (Raised e, w1) => (Raised e, w1)
  | (Diverged, w1) => (Diverged, w1)
  end.
Proof.
  intros Hx Ho. unfold _sample_reference_posterior.
  destruct num_observation as [k |]; destruct observation as [o' |];
    simpl in Hx; try discriminate; simpl in Ho.
  - rewrite Ho. simpl bind at 1. rewrite run_bind.
    destruct (run (rejection_loop fuel self o n (0%Z, [])) w)
      as [[st | e |] w1]; try reflexivity.
    unfold after_loop, cat_checked, true_div.
    destruct (snd st) as [| s l]; [reflexivity |].
    simpl bind. destruct (fst st =? 0)%Z; reflexivity.
  - inversion Ho; subst. simpl bind at 1. rewrite run_bind.
    destruct (run (rejection_loop fuel self o n (0%Z, [])) w)
      as [[st | e |] w1]; try reflexivity.
    unfold after_loop, cat_checked, true_div.
    destruct (snd st) as [| s l]; [reflexivity |].
    simpl bind. destruct (fst st =? 0)%Z; reflexivity.
Qed.

(** The only exception the loop raises is a shape mismatch. *)
Lemma loop_body_raised self observation st w e w' :
  run (loop_body self observation st) w = (Raised e, w') ->
  e = shape_mismatch.
Proof.
  unfold loop_body; simpl run. rewrite run_bind.
  unfold prior_log_prob, uniform_event_log_prob.
  match goal with
  | |- context [sequence_option ?l] => destruct (sequence_option l)
  end; simpl; [| intro H; now inversion H].
  rewrite run_bind.
  destruct (Nat.ltb 0 (length (snd st))).
  - unfold contains, eq_entries.
    match goal with
    | |- context [broadcast ?a ?b] => destruct (broadcast a b)
    end; simpl; [| intro H; now inversion H].
    match goal with
    | |- context [sequence_option ?l] => destruct (sequence_option l)
    end; simpl; [| intro H; now inversion H].
    match goal with
    | |- context [if ?c then _ else _] => destruct c
    end; simpl; discriminate.
  - simpl.
    match goal with
    | |- context [if ?c then _ else _] => destruct c
    end; simpl; discriminate.
Qed.

Lemma rejection_loop_raised self observation n fuel : forall st w e w',
  run (rejection_loop fuel self observation n st) w = (Raised e, w') ->
  e = shape_mismatch.
Proof.
  induction fuel as [| fuel IH]; intros st w e w' H;
    rewrite rejection_loop_eq in H;
    destruct (Z.ltb (Z.of_nat (length (snd st))) n); try discriminate.
  rewrite run_bind in H.
  destruct (run (loop_body self observation st) w) as [[st1 | e1 |] w1] eqn:Hb;
    try discriminate.
  - eapply IH; eassumption.
  - inversion H; subst. eapply loop_body_raised; eassumption.
Qed.

(** A run of the sampler that returns was given exactly one of the two
    arguments, ran the loop to its end on the observation used, and then
    went through the lines after the loop. *)
Lemma srp_returned fuel self n num_observation observation w samples w' :
  run (_sample_reference_posterior fuel self n num_observation observation) w
    = (Returned samples, w') ->
  exists o st w1,
    observation_used self num_observation observation = Some o /\
    run (rejection_loop fuel self o n (0%Z, [])) w = (Returned st, w1) /\
    after_loop n num_observation st w1 = (Returned samples, w').
Proof.
  intro H.
  destruct num_observation as [k |]; destruct observation as [o' |];
    try (simpl in H; discriminate).
  - destruct (get_observation self k) as [o |] eqn:Ho.
    + rewrite (srp_run fuel self n (Some k) None (o := o) w eq_refl Ho) in H.
      destruct (run (rejection_loop fuel self o n (0%Z, [])) w)
        as [[st | e |] w1] eqn:Hl; try discriminate.
      exists o, st, w1. split; [exact Ho | split; [exact Hl | exact H]].
    + unfold _sample_reference_posterior in H. rewrite Ho in H.
      simpl in H. discriminate.
  - rewrite (srp_run fuel self n None (Some o') (o := o') w eq_refl eq_refl) in H.
    destruct (run (rejection_loop fuel self o' n (0%Z, [])) w)
      as [[st | e |] w1] eqn:Hl; try discriminate.
    exists o', st, w1. split; [reflexivity | split; [exact Hl | exact H]].
Qed.

Lemma after_loop_returned n num_observation st w samples w' :
  after_loop n num_observation st w = (Returned samples, w') ->
  snd st <> [] /\ fst st <> 0%Z /\ samples = cat (snd st) /\
  generator w' = generator w /\
  log w' = log w ++ [{| log_num_observation := num_observation;
                        log_acceptance_rate :=
                          inject_Z n / inject_Z (fst st) |}].
Proof.
  unfold after_loop.
  destruct (snd st) as [| s l]; [discriminate |].
  destruct (Z.eqb_spec (fst st) 0); [discriminate |].
  intro H; inversion H; subst; simpl.
  repeat split; [discriminate | assumption].
Qed.

(** Every accepted sample has the shape of the observation. *)
Lemma accepted_shapes self observation n st w st' w' :
  loop_reaches self observation n st w st' w' ->
  Forall (fun s => same_shape s observation) (snd st) ->
  Forall (fun s => same_shape s observation) (snd st').
Proof.
  intro Hr. revert Hr.
  apply (loop_invariant (self := self) (observation := observation) (n := n)
           (fun l => Forall (fun s => same_shape s observation) l)).
  intros accepted w0 lp HP _ _ _.
  apply Forall_app. split; [exact HP |].
  constructor; [apply candidate_shape | constructor].
Qed.

Lemma cat_shape observation (l : list matrix) :
  Forall (fun s => same_shape s observation) l ->
  length (cat l) = (length l * length observation)%nat /\
  forall d, cols d observation -> cols d (cat l).
Proof.
  unfold cat. induction 1 as [| s l Hs _ [IHl IHc]]; simpl.
  - split; [reflexivity | intros; constructor].
  - split.
    + rewrite length_app, IHl. now rewrite (same_shape_length Hs).
    + intros d Hd. apply Forall_app. split.
      * eapply same_shape_cols; eassumption.
      * now apply IHc.
Qed.

(* ------------------------------------------------------------------ *)
(** ** The claims *)

(** C1.  A call with both [num_observation] and [observation], or with
    neither, ends in an assertion failure with the world untouched: no
    variate has been read and nothing has been logged.  A call with exactly
    one of the two never ends in an assertion failure. *)
Theorem exactly_one_observation_argument :
  forall fuel self num_samples w,
    run (_sample_reference_posterior fuel self num_samples None None) w
      = (Raised AssertionError, w) /\
    (forall n o,
        run (_sample_reference_posterior fuel self num_samples
               (Some n) (Some o)) w
          = (Raised AssertionError, w)) /\
    (forall n,
        fst (run (_sample_reference_posterior fuel self num_samples
                    (Some n) None) w)
          <> Raised AssertionError) /\
    (forall o,
        fst (run (_sample_reference_posterior fuel self num_samples
                    None (Some o)) w)
          <> Raised AssertionError).
Proof.
  intros fuel self num_samples w.
  assert (Hone : forall num_observation observation o,
             xorb (is_none num_observation) (is_none observation) = true ->
             observation_used self num_observation observation = Some o ->
             fst (run (_sample_reference_posterior fuel self num_samples
                         num_observation observation) w)
               <> Raised AssertionError).
  { intros num_observation observation o Hx Ho.
    rewrite (srp_run fuel self num_samples num_observation observation w Hx Ho).
    destruct (run (rejection_loop fuel self o num_samples (0%Z, [])) w)
      as [[st | e |] w1] eqn:Hl; simpl; try discriminate.
    - unfold after_loop.
      destruct (snd st); [simpl; discriminate |].
      destruct (fst st =? 0)%Z; simpl; discriminate.
    - apply rejection_loop_raised in Hl. subst e. discriminate. }
  split; [reflexivity |].
  split; [intros n o; reflexivity |].
  split.
  - intro n. destruct (get_observation self n) as [o |] eqn:Ho.
    + eapply Hone; [reflexivity | exact Ho].
    + unfold _sample_reference_posterior. rewrite Ho. simpl. discriminate.
  - intro o. eapply Hone; reflexivity.
Qed.

(** C2.  For [num_samples >= 1] and an observation of shape [(1, dim)], a
    call that returns gives a tensor of exactly [num_samples] rows, each of
    [dim] entries. *)
Theorem returns_exactly_num_samples :
  forall fuel self num_samples num_observation observation row w samples w',
    (1 <= num_samples)%Z ->
    observation_used self num_observation observation = Some [row] ->
    run (_sample_reference_posterior fuel self num_samples
           num_observation observation) w = (Returned samples, w') ->
    Z.of_nat (length samples) = num_samples /\
    cols (length row) samples /\
    shape (T2 samples) = [Z.to_nat num_samples; length row].
Proof.
  intros fuel self n num_observation observation row w samples w' Hn Ho H.
  apply srp_returned in H as (o & st & w1 & Ho' & Hl & Ha).
  rewrite Ho in Ho'. inversion Ho'; subst o; clear Ho'.
  apply rejection_loop_returned in Hl as [Hr Hexit].
  apply after_loop_returned in Ha as (_ & _ & -> & _ & _).
  pose proof (loop_counts Hr) as (k & _ & _ & _ & _ & Hmax). simpl in Hmax.
  pose proof (accepted_shapes Hr) as Hsh. simpl in Hsh.
  specialize (Hsh (Forall_nil _)).
  destruct (cat_shape Hsh) as [Hlen Hcols]. simpl in Hlen.
  assert (Hc : cols (length row) (cat (snd st))).
  { apply Hcols. constructor; [reflexivity | constructor]. }
  assert (Hl : Z.of_nat (length (cat (snd st))) = n) by lia.
  repeat split; [exact Hl | exact Hc |].
  simpl. f_equal; [lia |].
  destruct (cat (snd st)) as [| r rest] eqn:Hcat.
  - simpl in Hl. lia.
  - inversion Hc; subst. simpl. now f_equal.
Qed.

Lemma init_returned ext d b v self v' :
  __init__ ext d b v = (inr self, v') ->
  self = attributes ext d b /\ v' = false.
Proof.
  unfold __init__.
  destruct (v && negb (all_lt (prior_low (attributes ext d b))
                              (prior_high (attributes ext d b))));
    intro H; inversion H; auto.
Qed.

Lemma entries_within_cat lo hi (l : list matrix) :
  Forall (entries_within lo hi) l -> entries_within lo hi (cat l).
Proof.
  intros H row x Hrow Hx. unfold cat in Hrow.
  apply in_concat in Hrow as (s & Hs & Hrow).
  rewrite Forall_forall in H. exact (H s Hs row x Hrow Hx).
Qed.

Lemma rate_bounds (n k : Z) :
  (1 <= n <= k)%Z ->
  0 < inject_Z n / inject_Z k /\ inject_Z n / inject_Z k <= 1.
Proof.
  intros [Hn Hk].
  assert (Hk0 : 0 < inject_Z k).
  { change 0 with (inject_Z 0). rewrite <- Zlt_Qlt. lia. }
  split.
  - apply Qlt_shift_div_l; [exact Hk0 |].
    rewrite Qmult_0_l. change 0 with (inject_Z 0). rewrite <- Zlt_Qlt. lia.
  - apply Qle_shift_div_r; [exact Hk0 |].
    rewrite Qmult_1_l. rewrite <- Zle_Qle. exact Hk.
Qed.

(** C5.  A call that returns has logged one line, whose acceptance rate is
    [num_samples / attempts], where [attempts] is the number of passes
    through the loop: each pass reads one index variate and one variate per
    entry of the observation.  [num_samples] is the number of accepted
    samples (the returned tensor stacks them), it is at most [attempts], and
    the rate is positive and at most 1. *)
Theorem acceptance_rate_is_accepted_over_attempts :
  forall fuel self num_samples num_observation observation o w samples w',
    observation_used self num_observation observation = Some o ->
    run (_sample_reference_posterior fuel self num_samples
           num_observation observation) w = (Returned samples, w') ->
    exists attempts : nat,
      log w' = log w ++
                 [{| log_num_observation := num_observation;
                     log_acceptance_rate :=
                       inject_Z num_samples / inject_Z (Z.of_nat attempts) |}] /\
      cursor (generator w') =
        (cursor (generator w) + attempts * (1 + numel o))%nat /\
      length samples = (Z.to_nat num_samples * length o)%nat /\
      (1 <= num_samples <= Z.of_nat attempts)%Z /\
      0 < inject_Z num_samples / inject_Z (Z.of_nat attempts) /\
      inject_Z num_samples / inject_Z (Z.of_nat attempts) <= 1.
Proof.
  intros fuel self n num_observation observation o w samples w' Ho H.
  apply srp_returned in H as (o' & st & w1 & Ho' & Hl & Ha).
  rewrite Ho in Ho'. inversion Ho'; subst o'; clear Ho'.
  apply rejection_loop_returned in Hl as [Hr Hexit].
  apply after_loop_returned in Ha as (Hne & _ & -> & Hg & Hlog).
  pose proof (loop_counts Hr) as (k & Hk & Hcur & Hlog1 & Hlen & Hmax).
  simpl in Hk, Hlen, Hmax.
  pose proof (accepted_shapes Hr) as Hsh. simpl in Hsh.
  specialize (Hsh (Forall_nil _)).
  destruct (cat_shape Hsh) as [Hcl _].
  assert (Hpos : (1 <= length (snd st))%nat).
  { destruct (snd st); [congruence | simpl; lia]. }
  assert (Hnk : (1 <= n <= Z.of_nat k)%Z) by lia.
  exists k. rewrite Hk in Hlog.
  split; [rewrite Hlog, Hlog1; reflexivity |].
  split; [rewrite Hg; exact Hcur |].
  split; [rewrite Hcl; f_equal; lia |].
  split; [exact Hnk |].
  apply rate_bounds. exact Hnk.
Qed.

(* ------------------------------------------------------------------ *)
(** ** The prior *)

Lemma uniform_row_entries g pos low high x :
  In x (uniform_row g pos low high) ->
  exists lo hi j,
    In (lo, hi) (combine low high) /\
    x = lo + uniform_at g (pos + j) * (hi - lo).
Proof.
  unfold uniform_row. intro H.
  apply in_map_iff in H as ([j [lo hi]] & <- & Hin). simpl.
  exists lo, hi, j. split; [| reflexivity].
  eapply in_combine_r. exact Hin.
Qed.

Lemma length_uniform_row g pos low high :
  length low = length high ->
  length (uniform_row g pos low high) = length low.
Proof.
  intro H. unfold uniform_row.
  rewrite length_map, !length_combine, length_seq. lia.
Qed.

Lemma uniform_rows_spec g low high n : forall pos,
  length (uniform_rows g pos low high n) = n /\
  forall row, In row (uniform_rows g pos low high n) ->
              exists p, row = uniform_row g p low high.
Proof.
  induction n as [| n IH]; intro pos; simpl.
  - split; [reflexivity | contradiction].
  - destruct (IH (pos + length low)%nat) as [Hl Hr].
    split; [now rewrite Hl |].
    intros row [<- | Hin]; [now exists pos | now apply Hr].
Qed.

(* ------------------------------------------------------------------ *)
(** ** The simulator *)

Lemma map_snd_combine (A B : Type) (xs : list A) : forall ys : list B,
  length xs = length ys -> map snd (combine xs ys) = ys.
Proof.
  induction xs as [| x xs IH]; intros [| y ys] H; simpl in *;
    try discriminate; [reflexivity |].
  f_equal. apply IH. congruence.
Qed.

Lemma mul_col_shape col : forall m,
  length col = length m -> same_shape (mul_col col m) m.
Proof.
  unfold same_shape, mul_col.
  induction col as [| c col IH]; intros [| row m] H; simpl in *;
    try discriminate; constructor.
  - apply length_map.
  - apply IH. congruence.
Qed.

Lemma same_shape_shape a b :
  same_shape a b -> shape (T2 a) = shape (T2 b).
Proof.
  intro H. pose proof (same_shape_length H) as Hl.
  unfold same_shape in H. destruct H; simpl in *; [reflexivity |].
  congruence.
Qed.

(** The simulator returns, and what it returns has the shape of its
    argument after promotion to rank two. *)
Lemma simulator_shape self parameters w :
  exists data w',
    run (simulator self parameters) w = (Returned data, w') /\
    same_shape data (atleast_2d parameters).
Proof.
  unfold simulator. simpl run.
  set (m := atleast_2d parameters).
  set (idx := map (fun ip : nat * vector =>
                     inverse_cdf (snd ip)
                       (uniform_at (generator w)
                                   (cursor (generator w) + fst ip)))
                  (combine
                     (seq 0 (length (tile_rows (mixture_weights self)
                                               (length m))))
                     (tile_rows (mixture_weights self) (length m)))).
  assert (Hidx : length idx = length m).
  { unfold idx, tile_rows.
    rewrite length_map, length_combine, length_seq, repeat_length.
    apply Nat.min_id. }
  eexists. eexists. split; [reflexivity |].
  set (loc := mul_col (take (mixture_locs_factor self) idx) m).
  assert (Hloc : same_shape loc m).
  { apply mul_col_shape. unfold take. now rewrite length_map. }
  assert (Hsc : length (take (mixture_scales self) idx) = length loc).
  { unfold take. rewrite length_map, Hidx.
    symmetry. apply same_shape_length. exact Hloc. }
  eapply same_shape_trans; [| exact Hloc].
  match goal with
  | |- same_shape (normal_rows ?g ?pos ?rows) _ =>
      pose proof (normal_rows_shape g rows pos) as H
  end.
  rewrite map_snd_combine in H by exact Hsc. exact H.
Qed.

(** C7.  For a batch of parameter vectors (a rank-2 tensor), the simulator
    returns a tensor with as many rows as the batch and, row by row, as many
    entries: the shapes agree. *)
Theorem simulator_preserves_batch_shape :
  forall self parameters w,
  exists data w',
    run (simulator self (T2 parameters)) w = (Returned data, w') /\
    length data = length parameters /\
    same_shape data parameters /\
    shape (T2 data) = shape (T2 parameters).
Proof.
  intros self parameters w.
  destruct (simulator_shape self (T2 parameters) w) as (data & w' & Hrun & Hs).
  simpl in Hs.
  exists data, w'. split; [exact Hrun |].
  split; [apply same_shape_length; exact Hs |].
  split; [exact Hs | apply same_shape_shape; exact Hs].
Qed.

(** C10.  The simulator closure handed to the [Simulator] object takes a
    rank-1 vector of [d] entries as a batch of one: what it returns has
    shape [(1, d)], one dimension more than the argument. *)
Theorem simulator_promotes_vector :
  forall self max_calls (parameters : vector) w,
  exists data w',
    run (sim_simulator (get_simulator self max_calls) (T1 parameters)) w
      = (Returned data, w') /\
    shape (T2 data) = [1%nat; length parameters] /\
    ndim (T2 data) = S (ndim (T1 parameters)).
Proof.
  intros self max_calls parameters w. simpl sim_simulator.
  destruct (simulator_shape self (T1 parameters) w) as (data & w' & Hrun & Hs).
  exists data, w'. split; [exact Hrun |].
  split; [| reflexivity].
  apply same_shape_shape in Hs. exact Hs.
Qed.

(* ------------------------------------------------------------------ *)
(** ** The proposal and the degenerate call *)

Lemma inverse_cdf_in_range probs : forall u,
  probs <> [] -> (inverse_cdf probs u < length probs)%nat.
Proof.
  induction probs as [| p rest IH]; intros u Hne; [congruence |].
  simpl. destruct rest as [| q rest]; [lia |].
  destruct (Qle_bool p u); [| lia].
  assert (H : (inverse_cdf (q :: rest) (u - p) < length (q :: rest))%nat)
    by (apply IH; discriminate).
  simpl in H. simpl. lia.
Qed.

(** X6.  No call ends in a division by zero: when the division of line 143
    is reached the list is not empty, and the counter is at least its
    length. *)
Lemma never_division_by_zero fuel self n num_observation observation w :
  fst (run (_sample_reference_posterior fuel self n
              num_observation observation) w)
    <> Raised ZeroDivisionError.
Proof.
  destruct num_observation as [k |]; destruct observation as [o' |];
    try (simpl; discriminate).
  - destruct (get_observation self k) as [o |] eqn:Ho;
      [| unfold _sample_reference_posterior; rewrite Ho; simpl; discriminate].
    rewrite (srp_run fuel self n (Some k) None (o := o) w eq_refl Ho).
    destruct (run (rejection_loop fuel self o n (0%Z, [])) w)
      as [[st | e |] w1] eqn:Hl; simpl; try discriminate.
    + apply rejection_loop_returned in Hl as [Hr _].
      pose proof (loop_counts Hr) as (j & Hj & _ & _ & Hlen & _).
      simpl in Hj, Hlen. unfold after_loop.
      destruct (snd st) as [| s l] eqn:Hs; [simpl; discriminate |].
      simpl in Hlen.
      destruct (Z.eqb_spec (fst st) 0) as [E | _]; [lia | simpl; discriminate].
    + apply rejection_loop_raised in Hl. subst e. discriminate.
  - rewrite (srp_run fuel self n None (Some o') (o := o') w eq_refl eq_refl).
    destruct (run (rejection_loop fuel self o' n (0%Z, [])) w)
      as [[st | e |] w1] eqn:Hl; simpl; try discriminate.
    + apply rejection_loop_returned in Hl as [Hr _].
      pose proof (loop_counts Hr) as (j & Hj & _ & _ & Hlen & _).
      simpl in Hj, Hlen. unfold after_loop.
      destruct (snd st) as [| s l] eqn:Hs; [simpl; discriminate |].
      simpl in Hlen.
      destruct (Z.eqb_spec (fst st) 0) as [E | _]; [lia | simpl; discriminate].
    + apply rejection_loop_raised in Hl. subst e. discriminate.
Qed.

(** C9, as the code has it.  With [num_samples = 0] and exactly one of the
    two observation arguments, the loop body is never entered and the
    counter stays 0; the call then fails in [torch.cat], which refuses the
    empty list, before the acceptance rate is computed.  No variate is read
    and nothing is logged. *)
Theorem zero_samples_fails_in_cat :
  forall fuel self num_observation observation o w,
    xorb (is_none num_observation) (is_none observation) = true ->
    observation_used self num_observation observation = Some o ->
    run (rejection_loop fuel self o 0 (0%Z, [])) w
      = (Returned (0%Z, []), w) /\
    run (_sample_reference_posterior fuel self 0 num_observation observation) w
      = (Raised
           (RuntimeError "torch.cat(): expected a non-empty list of Tensors"),
         w).
Proof.
  intros fuel self num_observation observation o w Hx Ho.
  assert (Hl : run (rejection_loop fuel self o 0 (0%Z, [])) w
               = (Returned (0%Z, []), w)).
  { rewrite rejection_loop_eq. reflexivity. }
  split; [exact Hl |].
  rewrite (srp_run fuel self 0 num_observation observation w Hx Ho), Hl.
  reflexivity.
Qed.

Lemma sequence_option_map_total (A B : Type) (f : A -> option B)
  (g : A -> B) (l : list A) :
  (forall a, In a l -> f a = Some (g a)) ->
  sequence_option (map f l) = Some (map g l).
Proof.
  induction l as [| a l IH]; intro H; simpl; [reflexivity |].
  rewrite (H a (or_introl eq_refl)), IH; [reflexivity |].
  intros a' Ha'. apply H. now right.
Qed.

Lemma existsb_concat (A : Type) (p : A -> bool) (ls : list (list A)) :
  existsb p (concat ls) = existsb (existsb p) ls.
Proof.
  induction ls as [| l ls IH]; simpl; [reflexivity |].
  now rewrite existsb_app, IH.
Qed.

Lemma existsb_map (A B : Type) (f : A -> B) (p : B -> bool) (l : list A) :
  existsb p (map f l) = existsb (fun a => p (f a)) l.
Proof.
  induction l as [| a l IH]; simpl; [reflexivity | now rewrite IH].
Qed.

(** What the duplicate test decides for a one-row candidate against
    accepted rows of the same length: whether the candidate agrees with some
    accepted row in some entry. *)
Lemma duplicate_test_any_entry (accepted : list matrix) (r : vector) :
  accepted <> [] ->
  cols (length r) (cat accepted) ->
  duplicate_test accepted [r] = inr (existsb (shares_entry r) (cat accepted)).
Proof.
  intros Hne Hc. unfold duplicate_test.
  destruct accepted as [| s l]; [congruence |].
  change (Nat.ltb 0 (length (s :: l))) with true. cbv iota.
  unfold contains, eq_entries.
  change (broadcast [r] (cat (s :: l)))
    with (Some (map (pair r) (cat (s :: l)))).
  cbv iota. rewrite map_map. simpl fst. simpl snd.
  rewrite (sequence_option_map_total
             (fun r' : vector => broadcast r r') (combine r)).
  - f_equal. rewrite existsb_map, existsb_concat, existsb_map.
    reflexivity.
  - intros r' Hr'. apply broadcast_same_length.
    unfold cols in Hc. rewrite Forall_forall in Hc.
    symmetry. now apply Hc.
Qed.

(** C4, at a failing input.  With two dimensions and the candidates (1,2),
    (1,3), (4,5): the second candidate is not identical to the accepted
    (1,2), yet the duplicate test is true for it, because the test asks
    whether any entry agrees; the candidate is rejected, and the call for two
    samples returns (1,2) and (4,5) after three passes. *)
Theorem shared_entry_counts_as_duplicate :
  __init__ no_files 2 10 true = (inr (attributes no_files 2 10), false) /\
  candidate (attributes no_files 2 10) [[0; 0]]
    {| generator := advance 3 sharing_generator; log := [] |} = [[1; 3]] /\
  ~ identical [[1; 3]] [[1; 2]] /\
  duplicate_test [[[1; 2]]] [[1; 3]] = inr true /\
  prior_log_prob (attributes no_files 2 10) [[1; 3]] = inr [Finite] /\
  run (loop_body (attributes no_files 2 10) [[0; 0]] (1%Z, [[[1; 2]]]))
      {| generator := advance 3 sharing_generator; log := [] |}
    = (Returned (2%Z, [[[1; 2]]]),
       {| generator := advance 6 sharing_generator; log := [] |}) /\
  fst (run (_sample_reference_posterior 10 (attributes no_files 2 10) 2
              None (Some [[0; 0]])) sharing_world)
    = Returned [[1; 2]; [4; 5]] /\
  log (snd (run (_sample_reference_posterior 10 (attributes no_files 2 10) 2
                   None (Some [[0; 0]])) sharing_world))
    = [{| log_num_observation := None; log_acceptance_rate := 2 # 3 |}].
Proof.
  split; [reflexivity |].
  split; [vm_compute; reflexivity |].
  split.
  - intro H. inversion H as [| r1 r2 l1 l2 Hr _]; subst.
    inversion Hr as [| x y t1 t2 _ Ht]; subst.
    inversion Ht as [| x' y' t1' t2' Hxy _]; subst.
    revert Hxy. unfold Qeq. simpl. lia.
  - repeat split; vm_compute; reflexivity.
Qed.

(* ------------------------------------------------------------------ *)
(** ** The theorems at concrete inputs *)

Lemma example_generator_unit_interval : unit_interval example_generator.
Proof.
  intro i. simpl. split; unfold Qle, Qlt; simpl; lia.
Defined.

Lemma example_call_returns :
  run example_call example_world
  = (Returned [[1; 2]; [4; 5]], snd (run example_call example_world)).
Proof.
  vm_compute. reflexivity.
Defined.

Lemma returns_exactly_num_samples_witness :
  Z.of_nat (length [[1; 2]; [4; 5]]) = 2%Z /\
  cols 2 [[1; 2]; [4; 5]] /\
  shape (T2 [[1; 2]; [4; 5]]) = [2%nat; 2%nat].
Proof.
  apply (@returns_exactly_num_samples 10 (attributes no_files 2 10) 2
           None (Some [[0; 0]]) [0; 0] example_world [[1; 2]; [4; 5]]
           (snd (run example_call example_world))).
  - lia.
  - reflexivity.
  - exact example_call_returns.
Defined.

Lemma acceptance_rate_witness :
  exists attempts : nat,
    log (snd (run example_call example_world)) =
      [{| log_num_observation := None;
          log_acceptance_rate := inject_Z 2 / inject_Z (Z.of_nat attempts) |}] /\
    cursor (generator (snd (run example_call example_world))) =
      (attempts * 3)%nat /\
    length [[1; 2]; [4; 5]] = 2%nat /\
    (1 <= 2 <= Z.of_nat attempts)%Z /\
    0 < inject_Z 2 / inject_Z (Z.of_nat attempts) /\
    inject_Z 2 / inject_Z (Z.of_nat attempts) <= 1.
Proof.
  exact (@acceptance_rate_is_accepted_over_attempts 10
           (attributes no_files 2 10) 2 None (Some [[0; 0]]) [[0; 0]]
           example_world [[1; 2]; [4; 5]]
           (snd (run example_call example_world))
           eq_refl example_call_returns).
Defined.

Lemma zero_samples_fails_in_cat_witness :
  run (rejection_loop 10 (attributes no_files 2 10) [[0; 0]] 0 (0%Z, []))
      example_world
    = (Returned (0%Z, []), example_world) /\
  run (_sample_reference_posterior 10 (attributes no_files 2 10) 0
         None (Some [[0; 0]])) example_world
    = (Raised
         (RuntimeError "torch.cat(): expected a non-empty list of Tensors"),
       example_world).
Proof.
  apply (@zero_samples_fails_in_cat 10 (attributes no_files 2 10)
           None (Some [[0; 0]]) [[0; 0]] example_world).
  - reflexivity.
  - reflexivity.
Defined.

(* ------------------------------------------------------------------ *)
(** ** Inputs at which a claim fails as stated *)

(** C3, at a failing input.  A first construction leaves validation off; a
    task with bound -1, or with bound 0, can then be built.  Its prior
    log-probability is not a number for every candidate, so [isinf] is false
    and the candidate 5 is accepted, against the comment of line 117: it is
    outside the bounds and its log-probability is not finite. *)
Lemma nonpositive_bound_accepts_outside :
  snd (__init__ no_files 2 10 true) = false /\
  __init__ no_files 1 (- (1)) false
    = (inr (attributes no_files 1 (- (1))), false) /\
  cols 1 [[0]] /\
  fst (run (_sample_reference_posterior 10 (attributes no_files 1 (- (1))) 1
              None (Some [[0]])) far_world) = Returned [[5]] /\
  prior_log_prob (attributes no_files 1 (- (1))) [[5]] = inr [NaN] /\
  ~ finite_log_prob (attributes no_files 1 (- (1))) [[5]] /\
  ~ entries_within (- - (1)) (- (1)) [[5]] /\
  ~ entries_within (- (1)) 1 [[5]] /\
  __init__ no_files 1 0 false = (inr (attributes no_files 1 0), false) /\
  fst (run (_sample_reference_posterior 10 (attributes no_files 1 0) 1
              None (Some [[0]])) far_world) = Returned [[5]] /\
  ~ finite_log_prob (attributes no_files 1 0) [[5]] /\
  ~ entries_within (- 0) 0 [[5]].
Proof.
  assert (Hout : forall lo hi, hi < 5 -> ~ entries_within lo hi [[5]]).
  { intros lo hi Hlt H.
    destruct (H [5] 5 (or_introl eq_refl) (or_introl eq_refl)) as [_ H2].
    apply (Qlt_not_le _ _ Hlt). exact H2. }
  assert (Hnan : forall self, prior_log_prob self [[5]] = inr [NaN] ->
                              ~ finite_log_prob self [[5]]).
  { intros self E [lp [Hlp Hfin]]. rewrite E in Hlp.
    inversion Hlp; subst. discriminate. }
  split; [reflexivity |].
  split; [reflexivity |].
  split; [constructor; [reflexivity | constructor] |].
  split; [vm_compute; reflexivity |].
  split; [vm_compute; reflexivity |].
  split; [apply Hnan; vm_compute; reflexivity |].
  split; [apply Hout; unfold Qlt; simpl; lia |].
  split; [apply Hout; unfold Qlt; simpl; lia |].
  split; [reflexivity |].
  split; [vm_compute; reflexivity |].
  split; [apply Hnan; vm_compute; reflexivity |].
  apply Hout; unfold Qlt; simpl; lia.
Qed.

(** C9 as stated.  The call with [num_samples = 0] does fail, but in
    [torch.cat] and not in the division. *)
Lemma zero_samples_is_not_division_error :
  fst (run (_sample_reference_posterior 10 (attributes no_files 2 10) 0
              None (Some [[0; 0]])) example_world)
    = Raised (RuntimeError "torch.cat(): expected a non-empty list of Tensors")
  /\
  fst (run (_sample_reference_posterior 10 (attributes no_files 2 10) 0
              None (Some [[0; 0]])) example_world)
    <> Raised ZeroDivisionError.
Proof.
  split; [reflexivity | discriminate].
Qed.

(* ------------------------------------------------------------------ *)
(** ** One pass, as an equation *)

Lemma loop_body_run self observation st w :
  run (loop_body self observation st) w =
  match prior_log_prob self (candidate self observation w) with
  | inl e => (Raised e, after_pass observation w)
  | inr lp =>
      match duplicate_test (snd st) (candidate self observation w) with
      | inl e => (Raised e, after_pass observation w)
      | inr dup =>
          (Returned
             (if negb (isinf (sum_class lp)) && negb dup
              then ((fst st + 1)%Z,
                    snd st ++ [candidate self observation w])
              else ((fst st + 1)%Z, snd st)),
           after_pass observation w)
      end
  end.
Proof.
  unfold loop_body. simpl run.
  match goal with
  | |- context [lift (prior_log_prob self ?x)] =>
      change x with (candidate self observation w)
  end.
  rewrite numel_scalar_mul.
  change {| generator := advance (numel observation) (advance 1 (generator w));
            log := log w |} with (after_pass observation w).
  rewrite run_bind.
  destruct (prior_log_prob self (candidate self observation w)) as [e | lp];
    [reflexivity |].
  simpl run at 1. cbv iota. rewrite run_bind. unfold duplicate_test.
  destruct (Nat.ltb 0 (length (snd st))).
  - destruct (contains (cat (snd st)) (candidate self observation w))
      as [e | dup]; [reflexivity |].
    simpl. destruct (negb (isinf (sum_class lp)) && negb dup); reflexivity.
  - simpl. destruct (negb (isinf (sum_class lp))); reflexivity.
Qed.

(* ------------------------------------------------------------------ *)
(** ** The two tests of a pass *)

Lemma entry_finite low high x :
  low < high -> low <= x -> x < high ->
  uniform_log_prob_entry low high x = Finite.
Proof.
  intros Hlt Hlo Hhi. unfold uniform_log_prob_entry.
  assert (Hw : log_class (high - low) = Finite).
  { unfold log_class.
    assert (Hg : high - low > 0) by lra.
    apply Qgt_alt in Hg. now rewrite Hg. }
  rewrite Hw.
  assert (Hlb : Qle_bool low x = true) by (apply Qle_bool_iff; exact Hlo).
  assert (Hub : Qle_bool high x = false).
  { destruct (Qle_bool high x) eqn:E; [| reflexivity].
    apply Qle_bool_iff in E. exfalso. apply (Qlt_not_le _ _ Hhi). exact E. }
  rewrite Hlb, Hub. reflexivity.
Qed.

(** With a positive bound, a sample of the prior's dimension whose entries
    are all in the support has a log-probability that is not infinite. *)
Lemma in_support_not_outside ext d b sample :
  0 < b ->
  cols d sample ->
  entries_in_support b sample ->
  exists lp,
    prior_log_prob (attributes ext d b) sample = inr lp /\
    isinf (sum_class lp) = false.
Proof.
  intros Hb Hcols Hin.
  unfold prior_log_prob, uniform_event_log_prob.
  set (bounds := combine (prior_low (attributes ext d b))
                         (prior_high (attributes ext d b))).
  rewrite (sequence_option_map_total
             (fun row : vector => broadcast bounds row) (combine bounds)).
  - eexists. split; [reflexivity |].
    rewrite sum_class_all_finite; [reflexivity |].
    apply Forall_forall. intros c Hc.
    apply in_map_iff in Hc as (r & <- & Hr).
    apply in_map_iff in Hr as (row & <- & Hrow).
    apply sum_class_all_finite.
    apply Forall_forall. intros c Hc.
    apply in_map_iff in Hc as ([[lo hi] x] & <- & Hx). simpl.
    pose proof (in_combine_l _ _ _ _ Hx) as Hlh.
    pose proof (in_combine_r _ _ _ _ Hx) as Hxr.
    apply prior_bounds in Hlh as [Hlo Hhi].
    destruct (Hin row x Hrow Hxr) as [H1 H2].
    apply entry_finite; rewrite ?Hlo, ?Hhi; lra.
  - intros row Hrow. apply broadcast_same_length.
    unfold bounds. rewrite length_prior_bounds.
    unfold cols in Hcols. rewrite Forall_forall in Hcols.
    symmetry. now apply Hcols.
Qed.

Lemma same_shape_one_row (c : matrix) (row : vector) :
  same_shape c [row] -> exists r, c = [r] /\ length r = length row.
Proof.
  unfold same_shape. intro H.
  inversion H as [| r row' c' l' Hr Hc]; subst.
  inversion Hc; subst. now exists r.
Qed.

(** The duplicate test for a one-row candidate, the empty list included. *)
Lemma duplicate_test_one_row (accepted : list matrix) (r : vector) :
  cols (length r) (cat accepted) ->
  duplicate_test accepted [r] = inr (existsb (shares_entry r) (cat accepted)).
Proof.
  intro Hc. destruct accepted as [| s l].
  - reflexivity.
  - apply duplicate_test_any_entry; [discriminate | exact Hc].
Qed.

Lemma shares_entry_false (r r' : vector) :
  shares_entry r r' = false <-> no_common_entry r r'.
Proof.
  unfold shares_entry, no_common_entry.
  induction (combine r r') as [| [x y] l IH]; simpl.
  - split; [constructor | reflexivity].
  - rewrite orb_false_iff, IH. split.
    + intros [Hxy Hl]. constructor; [| exact Hl].
      simpl. intro E. apply Qeq_bool_iff in E. congruence.
    + intro H. inversion H as [| a l' Hxy Hl]; subst. split; [| exact Hl].
      simpl in Hxy. destruct (Qeq_bool x y) eqn:E; [| reflexivity].
      apply Qeq_bool_iff in E. contradiction.
Qed.

Lemma cat_snoc (l : list matrix) (s : matrix) : cat (l ++ [s]) = cat l ++ s.
Proof.
  unfold cat. rewrite concat_app. simpl. now rewrite app_nil_r.
Qed.

Lemma accepted_cols self observation n d st w st' w' :
  cols d observation ->
  loop_reaches self observation n st w st' w' ->
  cols d (cat (snd st)) -> cols d (cat (snd st')).
Proof.
  intros Hd Hr. revert Hr.
  apply (loop_invariant (self := self) (observation := observation) (n := n)
           (fun l => cols d (cat l))).
  intros accepted w0 lp HP _ _ _.
  rewrite cat_snoc. apply Forall_app. split; [exact HP |].
  eapply same_shape_cols; [apply candidate_shape | exact Hd].
Qed.

Lemma prior_log_prob_defined ext d b sample :
  cols d sample ->
  exists lp, prior_log_prob (attributes ext d b) sample = inr lp.
Proof.
  intro Hcols. unfold prior_log_prob, uniform_event_log_prob.
  set (bounds := combine (prior_low (attributes ext d b))
                         (prior_high (attributes ext d b))).
  rewrite (sequence_option_map_total
             (fun row : vector => broadcast bounds row) (combine bounds)).
  - eexists. reflexivity.
  - intros row Hrow. apply broadcast_same_length.
    unfold bounds. rewrite length_prior_bounds.
    unfold cols in Hcols. rewrite Forall_forall in Hcols.
    symmetry. now apply Hcols.
Qed.

Lemma existsb_shares_false (r : vector) (rows : matrix) :
  existsb (shares_entry r) rows = false <-> Forall (no_common_entry r) rows.
Proof.
  induction rows as [| r' rows IH]; simpl.
  - split; [constructor | reflexivity].
  - rewrite orb_false_iff, IH, shares_entry_false. split.
    + intros [H1 H2]. now constructor.
    + intro H. inversion H; subst. now split.
Qed.

Lemma snoc_not_same (A : Type) (l : list A) (x : A) : l ++ [x] <> l.
Proof.
  intro H. apply (f_equal (@length A)) in H.
  rewrite length_app in H. simpl in H. lia.
Qed.

Lemma ForallOrdPairs_snoc (A : Type) (R : A -> A -> Prop) (l : list A) (x : A) :
  ForallOrdPairs R l -> Forall (fun a => R a x) l ->
  ForallOrdPairs R (l ++ [x]).
Proof.
  induction 1 as [| a l Ha Hl IH]; intro Hx; simpl.
  - constructor; constructor.
  - inversion Hx; subst. constructor.
    + apply Forall_app. split; [exact Ha | constructor; [assumption | constructor]].
    + now apply IH.
Qed.

Lemma ForallOrdPairs_impl_in (A : Type) (R R' : A -> A -> Prop) (l : list A) :
  (forall a b, In a l -> In b l -> R a b -> R' a b) ->
  ForallOrdPairs R l -> ForallOrdPairs R' l.
Proof.
  intros Himp H. induction H as [| a l Ha Hl IH].
  - constructor.
  - constructor.
    + rewrite Forall_forall in *. intros b Hb.
      apply Himp; [now left | now right | now apply Ha].
    + apply IH. intros a' b' Ha' Hb'. apply Himp; now right.
Qed.

Lemma no_common_entry_not_equal (r r' : vector) :
  (1 <= length r)%nat -> length r = length r' ->
  no_common_entry r' r -> ~ Forall2 Qeq r r'.
Proof.
  intros Hl Hlen Hn Heq.
  destruct r as [| x r]; [simpl in Hl; lia |].
  destruct r' as [| y r']; [discriminate |].
  unfold no_common_entry in Hn. simpl in Hn.
  inversion Hn as [| a l Hxy _]; subst. simpl in Hxy.
  inversion Heq; subst. apply Hxy. symmetry. assumption.
Qed.

(** X2.  What the duplicate test does guarantee, for a one-row observation:
    in the returned tensor no row has an entry equal to the entry in the same
    column of an earlier row.  With at least one column, the rows are
    therefore pairwise different. *)
Theorem returned_rows_share_no_entry :
  forall fuel self num_samples num_observation observation row w samples w',
    observation_used self num_observation observation = Some [row] ->
    run (_sample_reference_posterior fuel self num_samples
           num_observation observation) w = (Returned samples, w') ->
    ForallOrdPairs (fun earlier later => no_common_entry later earlier)
                   samples /\
    ((1 <= length row)%nat ->
     ForallOrdPairs (fun earlier later => ~ Forall2 Qeq earlier later)
                    samples).
Proof.
  intros fuel self n num_observation observation row w samples w' Ho H.
  apply srp_returned in H as (o & st & w1 & Ho' & Hl & Ha).
  rewrite Ho in Ho'. inversion Ho'; subst o; clear Ho'.
  apply rejection_loop_returned in Hl as [Hr _].
  apply after_loop_returned in Ha as (_ & _ & -> & _ & _).
  assert (Hobs : cols (length row) [row])
    by (constructor; [reflexivity | constructor]).
  assert (Hcols : cols (length row) (cat (snd st))).
  { eapply accepted_cols; [exact Hobs | exact Hr | constructor]. }
  assert (Hinv : cols (length row) (cat (snd st)) /\
                 ForallOrdPairs
                   (fun earlier later => no_common_entry later earlier)
                   (cat (snd st))).
  { pose (P := fun l : list matrix =>
                 cols (length row) (cat l) /\
                 ForallOrdPairs
                   (fun earlier later => no_common_entry later earlier)
                   (cat l)).
    assert (Hstep : forall accepted w0 lp,
               P accepted ->
               prior_log_prob self (candidate self [row] w0) = inr lp ->
               isinf (sum_class lp) = false ->
               duplicate_test accepted (candidate self [row] w0) = inr false ->
               P (accepted ++ [candidate self [row] w0])).
    { intros accepted w0 lp [HPc HPo] _ _ Hdup.
      destruct (same_shape_one_row (candidate_shape self [row] w0))
        as (r & Hc & Hlen).
      rewrite Hc in *. unfold P. rewrite cat_snoc.
      split.
      + apply Forall_app. split; [exact HPc |].
        constructor; [exact Hlen | constructor].
      + apply ForallOrdPairs_snoc; [exact HPo |].
        rewrite duplicate_test_one_row in Hdup
          by (rewrite Hlen; exact HPc).
        inversion Hdup as [E]. apply existsb_shares_false. exact E. }
    apply (@loop_invariant self [row] n P Hstep _ _ _ _ Hr).
    split; constructor. }
  destruct Hinv as [_ Hpairs].
  split; [exact Hpairs |].
  intro Hpos.
  eapply ForallOrdPairs_impl_in; [| exact Hpairs].
  intros a b' Ha Hb' Hn. simpl in Hn.
  unfold cols in Hcols. rewrite Forall_forall in Hcols.
  apply no_common_entry_not_equal; [| | exact Hn].
  - rewrite (Hcols a Ha). exact Hpos.
  - rewrite (Hcols a Ha), (Hcols b' Hb'). reflexivity.
Qed.

(* ------------------------------------------------------------------ *)
(** ** Runs that do not return *)

(** X3.  The loop has no bound on its passes.  When the generator is such
    that, from whatever cursor, the candidate has an infinite prior
    log-probability, a call for at least one sample reads on for as long as
    it is run: for every fuel the outcome is [Diverged], with one line
    never logged. *)
Theorem all_candidates_outside_never_returns :
  forall fuel self num_samples num_observation observation o w,
    (1 <= num_samples)%Z ->
    xorb (is_none num_observation) (is_none observation) = true ->
    observation_used self num_observation observation = Some o ->
    (forall w0,
        same_streams (generator w) (generator w0) ->
        exists lp,
          prior_log_prob self (candidate self o w0) = inr lp /\
          isinf (sum_class lp) = true) ->
    exists w',
      run (_sample_reference_posterior fuel self num_samples
             num_observation observation) w = (Diverged, w') /\
      log w' = log w /\
      cursor (generator w') =
        (cursor (generator w) + fuel * (1 + numel o))%nat.
Proof.
  intros fuel self n num_observation observation o w Hn Hx Ho Hout.
  rewrite (srp_run fuel self n num_observation observation w Hx Ho).
  assert (Hloop : forall fuel c w0,
             same_streams (generator w) (generator w0) ->
             exists w',
               run (rejection_loop fuel self o n (c, [])) w0 = (Diverged, w') /\
               log w' = log w0 /\
               cursor (generator w') =
                 (cursor (generator w0) + fuel * (1 + numel o))%nat).
  { clear fuel. induction fuel as [| fuel IH]; intros c w0 Hs;
      rewrite rejection_loop_eq; simpl snd; simpl length;
      destruct (Z.ltb_spec (Z.of_nat 0) n) as [_ | Hc]; try (simpl in Hc; lia).
    - exists w0. split; [reflexivity |]. split; [reflexivity | simpl; lia].
    - rewrite run_bind, loop_body_run.
      destruct (Hout w0 Hs) as (lp & Hlp & Hinf).
      rewrite Hlp. simpl duplicate_test. cbv iota. rewrite Hinf. simpl negb.
      simpl andb. cbv iota.
      destruct (IH (c + 1)%Z (after_pass o w0)) as (w' & Hrun & Hlog & Hcur).
      { destruct Hs as [Hu Hnm]. split; simpl; assumption. }
      exists w'. split; [exact Hrun |].
      split; [rewrite Hlog; reflexivity |].
      rewrite Hcur. simpl. lia. }
  destruct (Hloop fuel 0%Z w) as (w' & Hrun & Hlog & Hcur).
  { split; reflexivity. }
  exists w'. rewrite Hrun. split; [reflexivity |]. split; assumption.
Qed.

Lemma broadcast_mismatch (A B : Type) (xs : list A) (ys : list B) :
  length xs <> length ys -> length xs <> 1%nat -> length ys <> 1%nat ->
  broadcast xs ys = None.
Proof.
  intros Hne Hx Hy. unfold broadcast.
  destruct xs as [| x [| x' xs]]; destruct ys as [| y [| y' ys]];
    simpl in *; try congruence.
  destruct (Nat.eqb_spec (length xs) (length ys)); [congruence | reflexivity].
Qed.

(** X4.  An observation whose width can not be broadcast against the prior
    (it is neither the prior's dimension nor 1, and the prior's dimension is
    not 1) stops the call in its first pass with a shape mismatch, raised by
    the prior log-probability. *)
Theorem observation_width_mismatch_raises :
  forall fuel ext d b v self v' num_samples num_observation observation row w,
    __init__ ext d b v = (inr self, v') ->
    (1 <= num_samples)%Z ->
    xorb (is_none num_observation) (is_none observation) = true ->
    observation_used self num_observation observation = Some [row] ->
    length row <> d -> length row <> 1%nat -> d <> 1%nat ->
    run (_sample_reference_posterior (S fuel) self num_samples
           num_observation observation) w
      = (Raised shape_mismatch, after_pass [row] w).
Proof.
  intros fuel ext d b v self v' n num_observation observation row w
         Hinit Hn Hx Ho Hne H1 Hd.
  apply init_returned in Hinit as [-> _].
  rewrite (srp_run (S fuel) (attributes ext d b) n num_observation observation
             w Hx Ho).
  rewrite rejection_loop_eq. simpl snd. simpl length.
  destruct (Z.ltb_spec (Z.of_nat 0) n) as [_ | Hc]; [| simpl in Hc; lia].
  rewrite run_bind, loop_body_run.
  destruct (same_shape_one_row (candidate_shape (attributes ext d b) [row] w))
    as (r & Hc & Hr).
  rewrite Hc.
  assert (Hb : broadcast (combine (prior_low (attributes ext d b))
                                  (prior_high (attributes ext d b))) r = None).
  { apply broadcast_mismatch; rewrite ?length_prior_bounds; congruence. }
  unfold prior_log_prob, uniform_event_log_prob. cbn [map].
  rewrite Hb. reflexivity.
Qed.

(** X5.  An observation of two or more rows can give at most two samples:
    the third candidate can not be compared with the two accepted ones,
    whose rows, stacked, are neither as many as its own nor one.  A call for
    three or more samples on such an observation never returns a tensor. *)
Theorem several_rows_never_three_samples :
  forall fuel self num_samples num_observation observation o w samples,
    (2 <= length o)%nat ->
    (3 <= num_samples)%Z ->
    observation_used self num_observation observation = Some o ->
    fst (run (_sample_reference_posterior fuel self num_samples
                num_observation observation) w) <> Returned samples.
Proof.
  intros fuel self n num_observation observation o w samples Hm Hn Ho H.
  destruct (run (_sample_reference_posterior fuel self n
                   num_observation observation) w) as [out w'] eqn:Hrun.
  simpl in H. subst out.
  apply srp_returned in Hrun as (o' & st & w1 & Ho' & Hl & _).
  rewrite Ho in Ho'. inversion Ho'; subst o'; clear Ho'.
  apply rejection_loop_returned in Hl as [Hr Hexit].
  pose (P := fun l : list matrix =>
               Forall (fun s => same_shape s o) l /\ (length l <= 2)%nat).
  assert (Hstep : forall accepted w0 lp,
             P accepted ->
             prior_log_prob self (candidate self o w0) = inr lp ->
             isinf (sum_class lp) = false ->
             duplicate_test accepted (candidate self o w0) = inr false ->
             P (accepted ++ [candidate self o w0])).
  { intros accepted w0 lp [Hsh Hlen] _ _ Hdup.
    split.
    - apply Forall_app. split; [exact Hsh |].
      constructor; [apply candidate_shape | constructor].
    - rewrite length_app. simpl.
      destruct (Nat.eq_dec (length accepted) 2) as [E | E]; [| lia].
      exfalso.
      destruct (cat_shape Hsh) as [Hcl _].
      pose proof (same_shape_length (candidate_shape self o w0)) as Hcand.
      unfold duplicate_test in Hdup. rewrite E in Hdup. simpl Nat.ltb in Hdup.
      cbv iota in Hdup. unfold contains, eq_entries in Hdup.
      rewrite broadcast_mismatch in Hdup; [discriminate | lia | lia | lia]. }
  assert (HP : P (snd st)).
  { apply (@loop_invariant self o n P Hstep _ _ _ _ Hr).
    split; [constructor | simpl; lia]. }
  destruct HP as [_ Hlen]. lia.
Qed.

(* ------------------------------------------------------------------ *)
(** ** How a call can fail *)

(** X7.  A call for no sample or for a negative number of samples, with
    exactly one observation argument that resolves, fails in [torch.cat]
    without a pass through the loop: no variate is read, nothing is
    logged. *)
Theorem nonpositive_num_samples_fails_in_cat :
  forall fuel self num_samples num_observation observation o w,
    (num_samples <= 0)%Z ->
    xorb (is_none num_observation) (is_none observation) = true ->
    observation_used self num_observation observation = Some o ->
    run (_sample_reference_posterior fuel self num_samples
           num_observation observation) w
      = (Raised
           (RuntimeError "torch.cat(): expected a non-empty list of Tensors"),
         w).
Proof.
  intros fuel self n num_observation observation o w Hn Hx Ho.
  rewrite (srp_run fuel self n num_observation observation w Hx Ho).
  rewrite rejection_loop_eq. simpl snd. simpl length.
  destruct (Z.ltb_spec (Z.of_nat 0) n) as [Hc | _]; [simpl in Hc; lia |].
  reflexivity.
Qed.

(* ------------------------------------------------------------------ *)
(** ** The constructor *)

Lemma all_lt_bounds d b :
  all_lt (map (Qmult (- b)) (ones d)) (map (Qmult b) (ones d))
  = Nat.eqb d 0 || negb (Qle_bool b 0).
Proof.
  assert (Hentry : negb (Qle_bool (b * 1) (- b * 1)) = negb (Qle_bool b 0)).
  { f_equal. destruct (Qle_bool b 0) eqn:E.
    - apply Qle_bool_iff. apply Qle_bool_iff in E. lra.
    - destruct (Qle_bool (b * 1) (- b * 1)) eqn:E'; [| reflexivity].
      apply Qle_bool_iff in E'.
      assert (H : b <= 0) by lra.
      apply Qle_bool_iff in H. congruence. }
  unfold all_lt, ones. induction d as [| d IH]; [reflexivity |].
  simpl. rewrite IH, Hentry.
  destruct (negb (Qle_bool b 0)); destruct (Nat.eqb d 0); reflexivity.
Qed.

(* ------------------------------------------------------------------ *)
(** ** The simulator, once more *)

Lemma cols_numel d (m : matrix) :
  cols d m -> numel m = (length m * d)%nat.
Proof.
  induction 1 as [| row m Hrow _ IH]; simpl; [reflexivity |].
  rewrite IH, Hrow. reflexivity.
Qed.

(** The simulator returns, keeps the shape, reads one index variate per row
    and one normal variate per entry, and logs nothing. *)
Lemma simulator_reads self parameters w :
  exists data w',
    run (simulator self parameters) w = (Returned data, w') /\
    same_shape data (atleast_2d parameters) /\
    log w' = log w /\
    cursor (generator w') =
      (cursor (generator w) + length (atleast_2d parameters)
       + numel (atleast_2d parameters))%nat.
Proof.
  destruct (simulator_shape self parameters w) as (data & w' & Hrun & Hs).
  exists data, w'. split; [exact Hrun |]. split; [exact Hs |].
  unfold simulator in Hrun. simpl run in Hrun.
  inversion Hrun as [[Hdata Hw']]. clear Hrun Hdata Hw'.
  split; [reflexivity |].
  set (m := atleast_2d parameters).
  simpl cursor. rewrite map_snd_combine.
  - rewrite (same_shape_numel (a := mul_col _ m) (b := m)).
    + unfold tile_rows. rewrite repeat_length. lia.
    + apply mul_col_shape. unfold take.
      rewrite length_map, length_map, length_combine, length_seq.
      unfold tile_rows. rewrite repeat_length. apply Nat.min_id.
  - unfold take, mul_col.
    rewrite !length_map, !length_combine, !length_map, !length_combine,
      !length_seq.
    unfold tile_rows. rewrite !repeat_length. lia.
Qed.

(** X11.  Prior and simulator composed.  Simulating what the prior closure
    returns for [num_samples >= 0] gives one row of data per parameter
    vector, each with the task's dimension; for one sample the data has the
    shape (1, dim) of an observation.  The two calls read
    [num_samples * dim] uniform variates, then [num_samples] index variates
    and [num_samples * dim] normal variates. *)
Theorem simulating_prior_samples_gives_observations :
  forall ext d b v self v' num_samples w,
    __init__ ext d b v = (inr self, v') ->
    (0 <= num_samples)%Z ->
    exists data w',
      run (bind (get_prior self num_samples)
                (fun parameters => simulator self (T2 parameters))) w
        = (Returned data, w') /\
      Z.of_nat (length data) = num_samples /\
      cols d data /\
      (num_samples = 1%Z -> shape (T2 data) = [1%nat; d]) /\
      log w' = log w /\
      cursor (generator w') =
        (cursor (generator w)
         + Z.to_nat num_samples * d
         + Z.to_nat num_samples
         + Z.to_nat num_samples * d)%nat.
Proof.
  intros ext d b v self v' n w Hinit Hn.
  apply init_returned in Hinit as [-> _].
  rewrite run_bind. unfold get_prior.
  destruct (Z.ltb_spec n 0) as [Hneg | _]; [lia |].
  set (low := prior_low (attributes ext d b)).
  set (high := prior_high (attributes ext d b)).
  simpl run at 1.
  set (parameters := uniform_rows (generator w) (cursor (generator w))
                                  low high (Z.to_nat n)).
  destruct (uniform_rows_spec (generator w) low high (Z.to_nat n)
              (cursor (generator w))) as [Hlen Hrows].
  fold parameters in Hlen, Hrows.
  assert (Hlh : length low = length high).
  { unfold low, high. simpl. now rewrite !length_map. }
  assert (Hd : length low = d).
  { unfold low. simpl. unfold ones. now rewrite length_map, repeat_length. }
  assert (Hcols : cols d parameters).
  { apply Forall_forall. intros row Hrow.
    destruct (Hrows row Hrow) as [p ->].
    now rewrite length_uniform_row. }
  pose proof (cols_numel Hcols) as Hnumel. rewrite Hlen in Hnumel.
  match goal with
  | |- context [run (simulator ?s (T2 parameters)) ?w1] =>
      destruct (simulator_reads s (T2 parameters) w1)
        as (data & w' & Hrun & Hshape & Hlog & Hcur)
  end.
  simpl atleast_2d in Hshape, Hcur.
  exists data, w'. split; [exact Hrun |].
  assert (Hdl : length data = Z.to_nat n).
  { rewrite (same_shape_length Hshape). exact Hlen. }
  assert (Hdc : cols d data).
  { eapply same_shape_cols; eassumption. }
  split; [lia |]. split; [exact Hdc |].
  split; [| split].
  - intro E. subst n. simpl in Hdl.
    destruct data as [| r [| r' rest]]; try discriminate.
    inversion Hdc as [| r0 l0 Hr0 _]. simpl. now rewrite Hr0.
  - rewrite Hlog. reflexivity.
  - rewrite Hcur, Hlen, Hnumel. simpl cursor. rewrite Hd. lia.
Qed.

(* ------------------------------------------------------------------ *)
(** ** Runs that return *)

Lemma candidates_succ self observation k w :
  candidates self observation (S k) w =
  candidates self observation k w
    ++ [candidate self observation (pass_world observation k w)].
Proof.
  unfold candidates. rewrite seq_S, map_app. reflexivity.
Qed.

Lemma length_candidates self observation k w :
  length (candidates self observation k w) = k.
Proof.
  unfold candidates. now rewrite length_map, length_seq.
Qed.

Lemma candidates_cols self row k w :
  cols (length row) (cat (candidates self [row] k w)).
Proof.
  induction k as [| k IH].
  - constructor.
  - rewrite candidates_succ, cat_snoc. apply Forall_app. split; [exact IH |].
    eapply same_shape_cols; [apply candidate_shape |].
    constructor; [reflexivity | constructor].
Qed.

(* ------------------------------------------------------------------ *)
(** ** The duplicate test in one dimension *)

(** X13.  For one-dimensional samples the duplicate test is the test for an
    exact duplicate: it is true exactly when the candidate is identical to
    an accepted sample. *)
Theorem one_dimensional_duplicate_test_is_exact :
  forall (accepted : list matrix) (x : Q),
    Forall (fun s : matrix => exists y, s = [[y]]) accepted ->
    exists dup,
      duplicate_test accepted [[x]] = inr dup /\
      (dup = true <-> exists s, In s accepted /\ identical [[x]] s).
Proof.
  intros accepted x Hacc.
  assert (Hcols : cols 1 (cat accepted)).
  { unfold cat. induction Hacc as [| s l [y ->] _ IH]; simpl.
    - constructor.
    - constructor; [reflexivity | exact IH]. }
  exists (existsb (shares_entry [x]) (cat accepted)).
  split; [apply duplicate_test_one_row; exact Hcols |].
  rewrite existsb_exists. split.
  - intros (r & Hr & Hs). unfold cat in Hr.
    apply in_concat in Hr as (s & Hsin & Hrs).
    rewrite Forall_forall in Hacc. destruct (Hacc s Hsin) as [y ->].
    destruct Hrs as [<- | []].
    exists [[y]]. split; [exact Hsin |].
    unfold shares_entry in Hs. simpl in Hs. rewrite orb_false_r in Hs.
    apply Qeq_bool_iff in Hs.
    repeat constructor. exact Hs.
  - intros (s & Hsin & Hid).
    rewrite Forall_forall in Hacc. destruct (Hacc s Hsin) as [y ->].
    exists [y]. split.
    + unfold cat. apply in_concat. exists [[y]]. split; [exact Hsin | now left].
    + unfold shares_entry. simpl. rewrite orb_false_r.
      apply Qeq_bool_iff.
      inversion Hid as [| a b' l l' Hrow _]; subst.
      inversion Hrow; subst. assumption.
Qed.

(* ------------------------------------------------------------------ *)
(** ** The log *)

Lemma rejection_loop_log self observation n fuel : forall st w out w',
  run (rejection_loop fuel self observation n st) w = (out, w') ->
  log w' = log w.
Proof.
  induction fuel as [| fuel IH]; intros st w out w' H;
    rewrite rejection_loop_eq in H;
    destruct (Z.ltb (Z.of_nat (length (snd st))) n);
    try (inversion H; reflexivity).
  rewrite run_bind, loop_body_run in H.
  destruct (prior_log_prob self (candidate self observation w)) as [e | lp];
    [inversion H; reflexivity |].
  destruct (duplicate_test (snd st) (candidate self observation w))
    as [e | dup]; [inversion H; reflexivity |].
  apply IH in H. exact H.
Qed.

(** X14.  The log line is written on return and only then: a call that
    returns has appended exactly one line, carrying the observation number it
    was given; a call that raises, or that is still in its loop when the fuel
    is used up, has logged nothing. *)
Theorem sampler_logs_only_on_return :
  forall fuel self num_samples num_observation observation w out w',
    run (_sample_reference_posterior fuel self num_samples
           num_observation observation) w = (out, w') ->
    match out with
    | Returned _ =>
        exists rate,
          log w' = log w ++ [{| log_num_observation := num_observation;
                                log_acceptance_rate := rate |}]
    | _ => log w' = log w
    end.
Proof.
  intros fuel self n num_observation observation w out w' H.
  assert (Hone : forall o,
             xorb (is_none num_observation) (is_none observation) = true ->
             observation_used self num_observation observation = Some o ->
             match out with
             | Returned _ =>
                 exists rate,
                   log w' = log w ++ [{| log_num_observation := num_observation;
                                         log_acceptance_rate := rate |}]
             | _ => log w' = log w
             end).
  { intros o Hx Ho.
    rewrite (srp_run fuel self n num_observation observation w Hx Ho) in H.
    destruct (run (rejection_loop fuel self o n (0%Z, [])) w)
      as [[st | e |] w1] eqn:Hl;
      apply rejection_loop_log in Hl.
    - unfold after_loop in H.
      destruct (snd st); [inversion H; subst; exact Hl |].
      destruct (fst st =? 0)%Z; inversion H; subst; [exact Hl |].
      simpl. rewrite Hl. eexists. reflexivity.
    - inversion H; subst. exact Hl.
    - inversion H; subst. exact Hl. }
  destruct num_observation as [k |]; destruct observation as [o' |].
  - simpl in H. inversion H; subst. reflexivity.
  - destruct (get_observation self k) as [o |] eqn:Ho.
    + apply (Hone o); [reflexivity | exact Ho].
    + unfold _sample_reference_posterior in H. rewrite Ho in H.
      simpl in H. inversion H; subst. reflexivity.
  - apply (Hone o'); reflexivity.
  - simpl in H. inversion H; subst. reflexivity.
Qed.

(* ------------------------------------------------------------------ *)
(** ** The further theorems at concrete inputs *)

Lemma entries_in_support_rows (b : Q) (m : matrix) :
  Forall (Forall (fun x => - b <= x /\ x < b)) m -> entries_in_support b m.
Proof.
  intros H row x Hrow Hx.
  rewrite Forall_forall in H. specialize (H row Hrow).
  rewrite Forall_forall in H. exact (H x Hx).
Defined.

Lemma returned_rows_share_no_entry_witness :
  ForallOrdPairs (fun earlier later => no_common_entry later earlier)
                 [[1; 2]; [4; 5]] /\
  ((1 <= length [0; 0])%nat ->
   ForallOrdPairs (fun earlier later => ~ Forall2 Qeq earlier later)
                  [[1; 2]; [4; 5]]).
Proof.
  exact (@returned_rows_share_no_entry 10 (attributes no_files 2 10) 2
           None (Some [[0; 0]]) [0; 0] example_world [[1; 2]; [4; 5]]
           (snd (run example_call example_world))
           eq_refl example_call_returns).
Defined.

(** With noise 5 everywhere and the observation (100, 100), every candidate
    is (105, 105), outside the bound 10. *)
Lemma far_candidates_outside :
  forall w0,
    same_streams (generator far_world) (generator w0) ->
    exists lp,
      prior_log_prob (attributes no_files 2 10)
        (candidate (attributes no_files 2 10) far_observation w0) = inr lp /\
      isinf (sum_class lp) = true.
Proof.
  intros [[u nm c] lg] [Hu Hn]. simpl in Hu, Hn. subst u nm.
  exists [NInf]. split; vm_compute; reflexivity.
Defined.

Lemma all_candidates_outside_witness :
  exists w',
    run (_sample_reference_posterior 7 (attributes no_files 2 10) 1
           None (Some far_observation)) far_world = (Diverged, w') /\
    log w' = log far_world /\
    cursor (generator w') =
      (cursor (generator far_world) + 7 * (1 + numel far_observation))%nat.
Proof.
  apply (@all_candidates_outside_never_returns 7 (attributes no_files 2 10) 1
           None (Some far_observation) far_observation far_world).
  - lia.
  - reflexivity.
  - reflexivity.
  - exact far_candidates_outside.
Defined.

Lemma observation_width_mismatch_witness :
  run (_sample_reference_posterior 1 (attributes no_files 2 10) 1
         None (Some [[0; 0; 0]])) example_world
    = (Raised shape_mismatch, after_pass [[0; 0; 0]] example_world).
Proof.
  apply (@observation_width_mismatch_raises 0 no_files 2 10 true
           (attributes no_files 2 10) false 1 None (Some [[0; 0; 0]])
           [0; 0; 0] example_world).
  - reflexivity.
  - lia.
  - reflexivity.
  - reflexivity.
  - simpl; lia.
  - simpl; lia.
  - lia.
Defined.

Lemma several_rows_witness :
  fst (run (_sample_reference_posterior 10 (attributes no_files 1 10) 3
              None (Some [[0]; [0]])) example_world) <> Returned [].
Proof.
  apply (@several_rows_never_three_samples 10 (attributes no_files 1 10) 3
           None (Some [[0]; [0]]) [[0]; [0]] example_world []).
  - simpl; lia.
  - lia.
  - reflexivity.
Defined.

Lemma nonpositive_num_samples_witness :
  run (_sample_reference_posterior 10 (attributes no_files 2 10) (-3)
         None (Some [[0; 0]])) example_world
    = (Raised
         (RuntimeError "torch.cat(): expected a non-empty list of Tensors"),
       example_world).
Proof.
  apply (@nonpositive_num_samples_fails_in_cat 10 (attributes no_files 2 10)
           (-3) None (Some [[0; 0]]) [[0; 0]] example_world).
  - lia.
  - reflexivity.
  - reflexivity.
Defined.

Lemma simulating_prior_samples_witness :
  exists data w',
    run (bind (get_prior (attributes no_files 2 10) 1)
              (fun parameters =>
                 simulator (attributes no_files 2 10) (T2 parameters)))
        example_world = (Returned data, w') /\
    Z.of_nat (length data) = 1%Z /\
    cols 2 data /\
    (1%Z = 1%Z -> shape (T2 data) = [1%nat; 2%nat]) /\
    log w' = log example_world /\
    cursor (generator w') =
      (cursor (generator example_world)
       + Z.to_nat 1 * 2 + Z.to_nat 1 + Z.to_nat 1 * 2)%nat.
Proof.
  apply (@simulating_prior_samples_gives_observations no_files 2 10 true
           (attributes no_files 2 10) false 1 example_world).
  - reflexivity.
  - lia.
Defined.

Lemma one_dimensional_duplicate_witness :
  exists dup,
    duplicate_test [[[1]]; [[3]]] [[3]] = inr dup /\
    (dup = true <-> exists s, In s [[[1]]; [[3]]] /\ identical [[3]] s).
Proof.
  apply (@one_dimensional_duplicate_test_is_exact [[[1]]; [[3]]] 3).
  repeat constructor; eexists; reflexivity.
Defined.

Lemma sampler_logs_witness :
  exists rate,
    log (snd (run example_call example_world)) =
      log example_world ++ [{| log_num_observation := None;
                               log_acceptance_rate := rate |}].
Proof.
  exact (@sampler_logs_only_on_return 10 (attributes no_files 2 10) 2
           None (Some [[0; 0]]) example_world (Returned [[1; 2]; [4; 5]])
           (snd (run example_call example_world)) example_call_returns).
Defined.

(* ------------------------------------------------------------------ *)
(** ** What one pass draws *)




(* ------------------------------------------------------------------ *)
(** ** A run that returns, and the validation switch *)

(** X12.  A condition under which the call returns.  When each of the first
    [n] candidates (n >= 1) passes both tests of its pass, given the
    candidates before it as the accepted list (its prior log-probability is
    not infinite and the duplicate test is false), the call for [n] samples
    returns with fuel [n], that is after exactly [n] passes; it returns those
    candidates in order, and logs the acceptance rate [n / n]. *)
Theorem candidates_passing_both_tests_are_returned :
  forall self o (n : nat) num_observation observation w,
    (1 <= n)%nat ->
    xorb (is_none num_observation) (is_none observation) = true ->
    observation_used self num_observation observation = Some o ->
    (forall k, (k < n)%nat ->
       exists lp,
         prior_log_prob self (candidate self o (pass_world o k w)) = inr lp /\
         isinf (sum_class lp) = false /\
         duplicate_test (candidates self o k w)
                        (candidate self o (pass_world o k w)) = inr false) ->
    run (_sample_reference_posterior n self (Z.of_nat n)
           num_observation observation) w
    = (Returned (cat (candidates self o n w)),
       {| generator := generator (pass_world o n w);
          log := log w ++
                   [{| log_num_observation := num_observation;
                       log_acceptance_rate :=
                         inject_Z (Z.of_nat n) / inject_Z (Z.of_nat n) |}] |}).
Proof.
  intros self o n num_observation observation w Hn Hx Ho Hall.
  assert (Hloop : forall m k c0,
             (k + m = n)%nat ->
             run (rejection_loop m self o (Z.of_nat n)
                    (c0, candidates self o k w)) (pass_world o k w)
             = (Returned ((c0 + Z.of_nat m)%Z, candidates self o n w),
                pass_world o n w)).
  { induction m as [| m IH]; intros k c0 Hk; rewrite rejection_loop_eq;
      simpl snd; rewrite length_candidates.
    - assert (k = n) by lia. subst k.
      destruct (Z.ltb_spec (Z.of_nat n) (Z.of_nat n)) as [Hc | _]; [lia |].
      rewrite Z.add_0_r. reflexivity.
    - destruct (Z.ltb_spec (Z.of_nat k) (Z.of_nat n)) as [_ | Hc]; [| lia].
      rewrite run_bind, loop_body_run.
      assert (Hkn : (k < n)%nat) by lia.
      destruct (Hall k Hkn) as (lp & Hlp & Hinf & Hdup).
      rewrite Hlp. simpl snd. rewrite Hdup, Hinf. simpl andb. cbv iota.
      simpl fst. rewrite <- candidates_succ.
      change (after_pass o (pass_world o k w)) with (pass_world o (S k) w).
      rewrite (IH (S k) (c0 + 1)%Z) by lia.
      replace (c0 + Z.of_nat (S m))%Z with (c0 + 1 + Z.of_nat m)%Z by lia.
      reflexivity. }
  rewrite (srp_run n self (Z.of_nat n) num_observation observation w Hx Ho).
  specialize (Hloop n 0%nat 0%Z eq_refl).
  change (candidates self o 0 w) with (@nil matrix) in Hloop.
  change (pass_world o 0 w) with w in Hloop.
  rewrite Hloop. unfold after_loop. simpl snd. simpl fst.
  destruct (candidates self o n w) as [| s l] eqn:Hcands.
  - apply (f_equal (@length matrix)) in Hcands.
    rewrite length_candidates in Hcands. simpl in Hcands. lia.
  - destruct (Z.eqb_spec (Z.of_nat n) 0) as [E | _]; [lia |].
    assert (Hlog : log (pass_world o n w) = log w).
    { clear. induction n as [| n IH]; [reflexivity | exact IH]. }
    rewrite Hlog. reflexivity.
Qed.

Lemma example_candidates_pass_both_tests :
  forall k, (k < 2)%nat ->
    exists lp,
      prior_log_prob (attributes no_files 2 10)
        (candidate (attributes no_files 2 10) [[0; 0]]
                   (pass_world [[0; 0]] k example_world)) = inr lp /\
      isinf (sum_class lp) = false /\
      duplicate_test
        (candidates (attributes no_files 2 10) [[0; 0]] k example_world)
        (candidate (attributes no_files 2 10) [[0; 0]]
                   (pass_world [[0; 0]] k example_world)) = inr false.
Proof.
  intros [| [| k]] Hk; [| | lia]; exists [Finite];
    repeat split; vm_compute; reflexivity.
Defined.

Lemma candidates_passing_both_tests_witness :
  run (_sample_reference_posterior 2 (attributes no_files 2 10)
         (Z.of_nat 2) None (Some [[0; 0]])) example_world
  = (Returned (cat (candidates (attributes no_files 2 10) [[0; 0]] 2
                               example_world)),
     {| generator := generator (pass_world [[0; 0]] 2 example_world);
        log := log example_world ++
                 [{| log_num_observation := None;
                     log_acceptance_rate :=
                       inject_Z (Z.of_nat 2) / inject_Z (Z.of_nat 2) |}] |}).
Proof.
  apply (@candidates_passing_both_tests_are_returned
           (attributes no_files 2 10) [[0; 0]] 2 None (Some [[0; 0]])
           example_world).
  - lia.
  - reflexivity.
  - reflexivity.
  - exact example_candidates_pass_both_tests.
Defined.

(** X8.  The validation switch across constructions.  After any successful
    construction validation is off, so a following construction succeeds for
    every dimension and every bound; among them are the tasks of dimension
    at least 1 with a bound that is not positive, which a construction
    entered with validation on refuses with the [ValueError] of the uniform
    distribution, validation staying on. *)
Theorem construction_switches_validation_off :
  forall ext d b v self v' ext2 d2 b2,
    __init__ ext d b v = (inr self, v') ->
    __init__ ext2 d2 b2 v' = (inr (attributes ext2 d2 b2), false) /\
    ((1 <= d2)%nat -> b2 <= 0 ->
     __init__ ext2 d2 b2 true
       = (inl (ValueError "Uniform is not defined when low>= high"), true)).
Proof.
  intros ext d b v self v' ext2 d2 b2 Hinit.
  apply init_returned in Hinit as [_ ->].
  split; [reflexivity |].
  intros Hd Hb. unfold __init__. simpl prior_low. simpl prior_high.
  rewrite all_lt_bounds.
  assert (E1 : Nat.eqb d2 0 = false) by (apply Nat.eqb_neq; lia).
  assert (E2 : Qle_bool b2 0 = true) by (apply Qle_bool_iff; exact Hb).
  rewrite E1, E2. reflexivity.
Qed.

Lemma construction_switches_validation_off_witness :
  __init__ no_files 1 (- (1)) false
    = (inr (attributes no_files 1 (- (1))), false) /\
  ((1 <= 1)%nat -> - (1) <= 0 ->
   __init__ no_files 1 (- (1)) true
     = (inl (ValueError "Uniform is not defined when low>= high"), true)).
Proof.
  apply (@construction_switches_validation_off no_files 2 10 true
           (attributes no_files 2 10) false no_files 1 (- (1))).
  reflexivity.
Defined.
